(** * aeron_properties_util.c: the properties line parser, the environment
    adapter and the file loader

    A shallow embedding of [aeron-driver/src/main/c/util/aeron_properties_util.c].
    Characters are [ascii]; a C string is the list of its characters before the
    terminating null; [size_t] and [int] values are integers with the
    conversions between the two types written out. *)

From Stdlib Require Import ZArith List Ascii String Bool Lia.
Import ListNotations.
Local Open Scope Z_scope.

(** ** Machine integers *)

Module C.

(** Arithmetic on [size_t] is modulo 2^64. *)
Definition size_t (z : Z) : Z := z mod 2 ^ 64.

(** Conversion to a 32-bit [int] (two's complement). *)
Definition int (z : Z) : Z := (z + 2 ^ 31) mod 2 ^ 32 - 2 ^ 31.

Definition INT_MAX : Z := 2 ^ 31 - 1.
Definition SIZE_MAX : Z := 2 ^ 64 - 1.

End C.

(** ** Characters and C strings *)

Definition NUL : ascii := "000"%char.
Definition TAB : ascii := "009"%char.
Definition LF : ascii := "010"%char.
Definition CR : ascii := "013"%char.
Definition BACKSLASH : ascii := "\"%char.

(** [' ' == c || '\t' == c] *)
Definition is_blank (c : ascii) : bool := (c =? " ")%char || (c =? TAB)%char.

(** [':' == c || '=' == c] *)
Definition is_separator (c : ascii) : bool := (c =? ":")%char || (c =? "=")%char.

(** ['!' == c || '#' == c] *)
Definition is_comment (c : ascii) : bool := (c =? "!")%char || (c =? "#")%char.

(** [line[i]] for a null-terminated [line]: the byte at [length line] is the
    terminator. *)
Definition char_at (line : list ascii) (i : Z) : ascii :=
  if i <? 0 then NUL else nth (Z.to_nat i) line NUL.

(** The [n] bytes of [line] from offset [start], as [memcpy] reads them. *)
Definition bytes_from (line : list ascii) (start : Z) (n : Z) : list ascii :=
  map (fun k => char_at line (start + Z.of_nat k)) (seq 0 (Z.to_nat n)).

(** [strlen] of a C string given by its characters. *)
Definition len (line : list ascii) : Z := Z.of_nat (List.length line).

(** ** aeron_next_non_whitespace *)

(** The loop [for (i = start; i <= end; i++)] over the bytes of [buffer] from
    [start] on; [rest] is what is left of the string at index [i].  When
    [rest] is empty the byte read is the terminating null, and the loop
    returns. *)
Fixpoint scan_from (rest : list ascii) (i end_ : Z) : Z :=
  if end_ <? i then -1
  else
    match rest with
    | [] => -1
    | c :: rest' =>
        if is_blank c then scan_from rest' (i + 1) end_
        else if (c =? NUL)%char then -1 else C.int i
    end.

Definition aeron_next_non_whitespace (buffer : list ascii) (start end_ : Z) : Z :=
  scan_from (skipn (Z.to_nat start) buffer) start end_.

(** ** The parser state *)

(** [property_str] is indexed by integers: the indices in [0, capacity) are
    the array, and a store outside of them is kept at its index so that what
    the function does after it can still be followed; every store is logged
    with its index. *)
Record aeron_properties_parser_state_t : Type := mk_state {
  property_str : Z -> ascii;
  name_end : Z;
  value_end : Z
}.

(** Modelled from the spec: [aeron_properties_parse_init] is declared in this
    file and defined in the header, which is not among the sources; the
    spec's reset puts both offsets to zero. *)
Definition aeron_properties_parse_init
    (state : aeron_properties_parser_state_t) : aeron_properties_parser_state_t :=
  {| property_str := property_str state; name_end := 0; value_end := 0 |}.

(** The state together with the indices stored to so far. *)
Definition run : Type := (aeron_properties_parser_state_t * list Z)%type.

Definition set_name_end (m : run) (n : Z) : run :=
  ({| property_str := property_str (fst m); name_end := n;
      value_end := value_end (fst m) |}, snd m).

Definition set_value_end (m : run) (n : Z) : run :=
  ({| property_str := property_str (fst m); name_end := name_end (fst m);
      value_end := n |}, snd m).

(** [state->property_str[i] = c] *)
Definition poke (m : run) (i : Z) (c : ascii) : run :=
  ({| property_str := fun k => if k =? i then c else property_str (fst m) k;
      name_end := name_end (fst m);
      value_end := value_end (fst m) |}, snd m ++ [i]).

(** [memcpy(state->property_str + dst, src, n)] with the [n] source bytes
    given as a list. *)
Fixpoint memcpy (m : run) (dst : Z) (src : list ascii) : run :=
  match src with
  | [] => m
  | c :: src' => memcpy (poke m dst c) (dst + 1) src'
  end.

(** The C string that starts at [mem + p]; it is read for at most [fuel]
    bytes. *)
Fixpoint c_string (fuel : nat) (mem : Z -> ascii) (p : Z) : list ascii :=
  match fuel with
  | O => []
  | S fuel' =>
      if (mem p =? NUL)%char then [] else mem p :: c_string fuel' mem (p + 1)
  end.

(** ** aeron_properties_parse_line *)

Inductive parse_error : Type :=
  | Line_too_long (total : Z)
  | Malformed_line.

Record outcome : Type := mk_outcome {
  result : Z;
  state : aeron_properties_parser_state_t;
  error : option parse_error;
  emitted : option (list ascii * list ascii);
  writes : list Z
}.

(** The type of the handler, without the client data: it receives the name
    and the value as C strings. *)
Definition aeron_properties_file_handler_func_t : Type :=
  list ascii -> list ascii -> Z.

Section Parser.

(** [sizeof(state->property_str)], that is AERON_PROPERTIES_MAX_LENGTH, which
    the header defines. *)
Variable capacity : Z.

(** The loop that trims the name, [for (int j = i - 1; j >= 0; j--)]; [n] is
    [j + 1]. *)
Fixpoint trim_loop (n : nat) (line : list ascii) (m : run) : run :=
  match n with
  | O => m
  | S j =>
      if is_blank (nth j line NUL) then
        let m1 := set_name_end m (name_end (fst m) - 1) in
        trim_loop j line (poke m1 (name_end (fst m1)) NUL)
      else m
  end.

(** The loop over the name, [for (size_t i = cursor; i < length; i++)]; [n]
    is the number of iterations left, [length - i]. The second component is
    [value_start]. *)
Fixpoint name_loop (n : nat) (line : list ascii) (i : Z) (m : run)
    (value_start : Z) : run * Z :=
  match n with
  | O => (m, value_start)
  | S n' =>
      let c := char_at line i in
      if is_separator c then
        let m1 := poke m (name_end (fst m)) NUL in
        let value_start := C.int (C.size_t (i + 1)) in
        let m2 := trim_loop (Z.to_nat (C.int (C.size_t (i - 1)) + 1)) line m1 in
        (set_value_end m2 (name_end (fst m2) + 1), value_start)
      else
        let m1 := poke m (name_end (fst m)) c in
        name_loop n' line (i + 1) (set_name_end m1 (name_end (fst m1) + 1))
          value_start
  end.

(** The call of the handler on the name at [property_str] and the value at
    [property_str + name_end + 1], followed by the reset. *)
Definition emit (m : run) (handler : aeron_properties_file_handler_func_t)
    : outcome :=
  let name := c_string (Z.to_nat capacity) (property_str (fst m)) 0 in
  let value :=
    c_string (Z.to_nat capacity) (property_str (fst m)) (name_end (fst m) + 1) in
  {| result := handler name value;
     state := aeron_properties_parse_init (fst m);
     error := None;
     emitted := Some (name, value);
     writes := snd m |}.

(** The part of the function after the two branches, from the test of the
    last byte on. *)
Definition accumulate (m : run) (line : list ascii) (length : Z)
    (value_start : Z) (handler : aeron_properties_file_handler_func_t)
    : outcome :=
  if (char_at line (C.size_t (length - 1)) =? BACKSLASH)%char then
    let n := C.size_t (C.size_t (length - C.size_t value_start) - 1) in
    let m1 := memcpy m (value_end (fst m)) (bytes_from line value_start n) in
    let m2 :=
      set_value_end m1 (C.int (C.size_t (C.size_t (value_end (fst m1)) + n))) in
    {| result := 0; state := fst m2; error := None; emitted := None;
       writes := snd m2 |}
  else
    let n := C.size_t (length - C.size_t value_start) in
    let m1 := memcpy m (value_end (fst m)) (bytes_from line value_start n) in
    let m2 :=
      set_value_end m1 (C.int (C.size_t (C.size_t (value_end (fst m1)) + n))) in
    let m3 := poke m2 (value_end (fst m2)) NUL in
    let m4 := set_value_end m3 (value_end (fst m3) + 1) in
    emit m4 handler.

Definition aeron_properties_parse_line
    (st : aeron_properties_parser_state_t) (line : list ascii) (length : Z)
    (handler : aeron_properties_file_handler_func_t) : outcome :=
  let in_name := if 0 <? name_end st then false else true in
  if length >=? C.size_t (capacity - C.size_t (value_end st)) then
    {| result := -1; state := st;
       error := Some (Line_too_long (C.size_t (length + C.size_t (value_end st))));
       emitted := None; writes := [] |}
  else if in_name then
    let cursor := aeron_next_non_whitespace line 0 (C.size_t (length - 1)) in
    if (cursor =? -1) || is_comment (char_at line cursor) then
      {| result := 0; state := st; error := None; emitted := None;
         writes := [] |}
    else
      let '(m, value_start) :=
        name_loop (Z.to_nat (length - cursor)) line cursor (st, []) 0 in
      if (value_end (fst m) =? 0) || (name_end (fst m) =? 0) then
        {| result := -1; state := aeron_properties_parse_init (fst m);
           error := Some Malformed_line; emitted := None; writes := snd m |}
      else
        let value_start :=
          aeron_next_non_whitespace line (C.size_t value_start)
            (C.size_t (length - 1)) in
        if value_start =? -1 then
          let m1 := poke m (value_end (fst m)) NUL in
          let m2 := set_value_end m1 (value_end (fst m1) + 1) in
          emit m2 handler
        else accumulate m line length value_start handler
  else
    let value_start :=
      aeron_next_non_whitespace line 0 (C.size_t (length - 1)) in
    if (value_start =? -1) || is_comment (char_at line value_start) then
      {| result := 0; state := st; error := None; emitted := None;
         writes := [] |}
    else accumulate (st, []) line length value_start handler.

End Parser.

(** ** aeron_properties_setenv *)

(** [toupper] in the C locale. *)
Definition toupper (c : ascii) : ascii :=
  let n := nat_of_ascii c in
  if ((97 <=? n) && (n <=? 122))%nat then ascii_of_nat (n - 32) else c.

(** What [aeron_properties_setenv] asks of the environment. *)
Inductive env_call : Type :=
  | Unsetenv (name : list ascii)
  | Setenv (name value : list ascii) (overwrite : bool).

Section Setenv.

Variable capacity : Z.

(** The loop [for (size_t i = 0; i < sizeof(env_name); i++)]; [n] is the
    number of iterations left and [name] the rest of the name at index [i].
    The result is the C string left in [env_name], or [None] when the loop
    ends without having stored the terminator. *)
Fixpoint env_name_loop (n : nat) (name : list ascii) : option (list ascii) :=
  match n with
  | O => None
  | S n' =>
      let c := hd NUL name in
      if (c =? ".")%char then
        option_map (cons "_"%char) (env_name_loop n' (tl name))
      else if (c =? NUL)%char then Some []
      else option_map (cons (toupper c)) (env_name_loop n' (tl name))
  end.

(** The return value and the call made; no call is recorded when [env_name]
    has no terminator. *)
Definition aeron_properties_setenv (name value : list ascii)
    : Z * option env_call :=
  let env_name := env_name_loop (Z.to_nat capacity) name in
  if (hd NUL value =? NUL)%char then (0, option_map Unsetenv env_name)
  else (0, option_map (fun k => Setenv k value true) env_name).

Definition aeron_properties_setenv_property (name value : list ascii) : Z :=
  fst (aeron_properties_setenv name value).

End Setenv.

(** ** aeron_properties_file_load *)

(** How the stream ends: [feof] holds, or a read failed with [errno]. *)
Inductive stream_end : Type :=
  | End_of_file
  | Read_failed (errno : Z).

(** An open stream: the strings that the successive calls of [fgets] return,
    and how the stream ends after them. *)
Record FILE : Type := mk_FILE {
  fgets_results : list (list ascii);
  at_end : stream_end
}.

Inductive load_error : Type :=
  | Could_not_open
  | Line_malformed (lineno : Z)
  | Line_not_terminated (lineno : Z)
  | Error_reading (errno : Z).

Record load_outcome : Type := mk_load_outcome {
  load_result : Z;
  load_err : option load_error;
  env_calls : list (option env_call);
  (** the lines given to the parser, each with the length passed *)
  parsed : list (list ascii * Z);
  fclose_calls : nat
}.

Section Loader.

Variable capacity : Z.

(** The byte in memory just before the array [line]; it is what
    [line[length - 1]] reads when [length] is zero. *)
Variable before_line : ascii.

Definition line_at (line : list ascii) (i : Z) : ascii :=
  if i =? C.SIZE_MAX then before_line else char_at line i.

(** The body of the [while] loop, once per string returned by [fgets]; the
    string [line] shrinks by its last character where the code stores a null
    at [line[length - 1]]. *)
Fixpoint load_loop (raw : list (list ascii)) (at_end : stream_end)
    (st : aeron_properties_parser_state_t) (lineno : Z)
    (calls : list (option env_call)) (seen : list (list ascii * Z))
    : load_outcome :=
  match raw with
  | [] =>
      match at_end with
      | End_of_file =>
          {| load_result := 0; load_err := None; env_calls := calls;
             parsed := seen; fclose_calls := 1 |}
      | Read_failed err_code =>
          {| load_result := -1; load_err := Some (Error_reading err_code);
             env_calls := calls; parsed := seen; fclose_calls := 1 |}
      end
  | line :: raw' =>
      let length := len line in
      if (line_at line (C.size_t (length - 1)) =? LF)%char then
        let line1 := removelast line in
        let length1 := C.size_t (length - 1) in
        let '(line2, length2) :=
          if (line_at line1 (C.size_t (length1 - 1)) =? CR)%char
          then (removelast line1, C.size_t (length1 - 1))
          else (line1, length1) in
        let o :=
          aeron_properties_parse_line capacity st line2 length2
            (aeron_properties_setenv_property capacity) in
        let calls' :=
          match emitted o with
          | Some (name, value) =>
              calls ++ [snd (aeron_properties_setenv capacity name value)]
          | None => calls
          end in
        if result o <? 0 then
          {| load_result := -1; load_err := Some (Line_malformed lineno);
             env_calls := calls'; parsed := seen ++ [(line2, length2)];
             fclose_calls := 1 |}
        else
          load_loop raw' at_end (state o) (lineno + 1) calls'
            (seen ++ [(line2, length2)])
      else
        {| load_result := -1; load_err := Some (Line_not_terminated lineno);
           env_calls := calls; parsed := seen; fclose_calls := 1 |}
  end.

(** [file] is what [fopen] gives: [None] when the file cannot be opened.
    [uninit] is the content of the local [state] before
    [aeron_properties_parse_init]. *)
Definition aeron_properties_file_load (file : option FILE)
    (uninit : aeron_properties_parser_state_t) : load_outcome :=
  match file with
  | None =>
      {| load_result := -1; load_err := Some Could_not_open; env_calls := [];
         parsed := []; fclose_calls := 0 |}
  | Some fpin =>
      load_loop (fgets_results fpin) (at_end fpin)
        (aeron_properties_parse_init uninit) 1 [] []
  end.

End Loader.

(** The characters of a string literal. *)
Definition chars (s : string) : list ascii := list_ascii_of_string s.

(** A state with both offsets at zero over a buffer of spaces. *)
Definition state0 : aeron_properties_parser_state_t :=
  {| property_str := fun _ => " "%char; name_end := 0; value_end := 0 |}.

(** ** What the statements speak of *)

(** Every character of [l] is a space or a tab. *)
Definition all_blank (l : list ascii) : bool := forallb is_blank l.

(** No character of [l] is the null character: [l] is the content of a C
    string. *)
Definition no_nul (l : list ascii) : bool :=
  forallb (fun c => negb (c =? NUL)%char) l.

(** [l] without its leading spaces and tabs. *)
Fixpoint drop_blanks (l : list ascii) : list ascii :=
  match l with
  | [] => []
  | c :: l' => if is_blank c then drop_blanks l' else l
  end.

(** A line that is blank, or whose first character after the leading blanks
    is ['!'] or ['#']. *)
Definition comment_or_blank (line : list ascii) : bool :=
  match drop_blanks line with
  | [] => true
  | c :: _ => is_comment c
  end.

(** A line that starts with a blank and whose first character after the
    blanks is a separator: its name is empty, and the trimming loop goes
    through the blanks in front. *)
Definition blank_then_separator (line : list ascii) : bool :=
  match line with
  | [] => false
  | c :: _ => is_blank c
  end
  && match drop_blanks line with
     | [] => false
     | c :: _ => is_separator c
     end.

(** The states of the parser between two records and inside a value. *)
Definition zero_state (st : aeron_properties_parser_state_t) : Prop :=
  name_end st = 0 /\ value_end st = 0.

Definition in_value_state (capacity : Z) (st : aeron_properties_parser_state_t)
    : Prop :=
  0 < name_end st /\ name_end st < value_end st /\ value_end st <= capacity /\
  property_str st (name_end st) = NUL.

(** A name as it stands on a line between the blanks: not empty, no blank
    at either end, no ['!'] or ['#'] in front, no separator and no null. *)
Definition is_name (name : list ascii) : bool :=
  match name with
  | [] => false
  | c :: _ => negb (is_blank c) && negb (is_comment c)
  end
  && negb (is_blank (last name NUL))
  && forallb (fun c => negb (is_separator c)) name
  && no_nul name.

(** The text of a value on a line, after the blanks in front of it: it does
    not start with a blank and has no null. *)
Definition is_value_text (body : list ascii) : bool :=
  match body with
  | [] => true
  | c :: _ => negb (is_blank c)
  end
  && no_nul body.

(** The text of a value on a continuation line: as above, and it does not
    start with ['!'] or ['#'], which would make the line a comment. *)
Definition is_fragment (body : list ascii) : bool :=
  match body with
  | [] => true
  | c :: _ => negb (is_comment c)
  end
  && is_value_text body.

(** The character of the environment key for the character [c] of the
    name. *)
Definition env_char (c : ascii) : ascii :=
  if (c =? ".")%char then "_"%char else toupper c.

(** The buffer of [st] starts with [name], a null and [value], with the two
    offsets at the end of each. *)
Definition holds (st : aeron_properties_parser_state_t)
    (name value : list ascii) : Prop :=
  name_end st = len name /\
  value_end st = len name + 1 + len value /\
  forall k, (k < List.length (name ++ NUL :: value))%nat ->
    property_str st (Z.of_nat k) = nth k (name ++ NUL :: value) NUL.

(** The indices [p], [p + 1], ..., [p + n - 1]. *)
Definition range (p : Z) (n : nat) : list Z :=
  map (fun j => p + Z.of_nat j) (seq 0 n).

(** The memory [mem] with [s] copied to offset [p]. *)
Definition blit (mem : Z -> ascii) (p : Z) (s : list ascii) (k : Z) : ascii :=
  if (p <=? k) && (k <? p + len s) then nth (Z.to_nat (k - p)) s NUL
  else mem k.

(** [k] rounds of the trimming loop. *)
Fixpoint trim_n (k : nat) (m : run) : run :=
  match k with
  | O => m
  | S k' =>
      let m1 := set_name_end m (name_end (fst m) - 1) in
      trim_n k' (poke m1 (name_end (fst m1)) NUL)
  end.

(** No character of [l] is a separator. *)
Definition no_separator (l : list ascii) : bool :=
  forallb (fun c => negb (is_separator c)) l.

(** A state inside a value: the buffer holds [N], a null and [AB]. *)
Definition state_N_AB : aeron_properties_parser_state_t :=
  {| property_str := fun k =>
       nth (Z.to_nat k) ("N"%char :: NUL :: chars "AB") " "%char;
     name_end := 1; value_end := 4 |}.

(** The state between records over the memory [mem]. *)
Definition zero_with (mem : Z -> ascii) : aeron_properties_parser_state_t :=
  {| property_str := mem; name_end := 0; value_end := 0 |}.

(** A text file with the given lines, each ended by a newline, read to the
    end without error. *)
Definition file_of_lines (lines : list string) : option FILE :=
  Some {| fgets_results := map (fun l => chars l ++ [LF]) lines;
          at_end := End_of_file |}.

(** *** Text files

    The end of a line in a text file: a newline, after a carriage return
    when [crlf]. *)
Definition eol (crlf : bool) : list ascii := if crlf then [CR; LF] else [LF].

(** The string that [fgets] returns for the line [text]. *)
Definition raw_line (crlf : bool) (text : list ascii) : list ascii :=
  text ++ eol crlf.

(** The text of a line that the loader gives to the parser as it is: with
    a newline alone at the end of the lines, it is not empty and does not
    end in a carriage return. *)
Definition text_ok (crlf : bool) (text : list ascii) : bool :=
  crlf
  || (match text with [] => false | _ :: _ => true end
      && negb (last text NUL =? CR)%char).

(** A line inside a record that goes on: a comment or blank line, or blanks
    and a piece of the value before a backslash. *)
Inductive cont_line : Type :=
  | Skipped (text : list ascii)
  | Fragment (ws frag : list ascii).

(** What a properties file is made of: comment or blank lines, records on
    one line, and records whose value goes on over more lines. *)
Inductive entry : Type :=
  | Comment (text : list ascii)
  | Property (ws1 name ws2 : list ascii) (sep : ascii) (rest : list ascii)
  | Continued (ws1 name ws2 : list ascii) (sep : ascii) (ws3 v0 : list ascii)
      (more : list cont_line) (wsl last_frag : list ascii).

Definition cont_text (c : cont_line) : list ascii :=
  match c with
  | Skipped text => text
  | Fragment ws frag => ws ++ frag ++ [BACKSLASH]
  end.

Definition cont_value (c : cont_line) : list ascii :=
  match c with
  | Skipped _ => []
  | Fragment _ frag => frag
  end.

(** The lines of an entry. *)
Definition texts_of (e : entry) : list (list ascii) :=
  match e with
  | Comment text => [text]
  | Property ws1 name ws2 sep rest => [ws1 ++ name ++ ws2 ++ sep :: rest]
  | Continued ws1 name ws2 sep ws3 v0 more wsl last_frag =>
      (ws1 ++ name ++ ws2 ++ sep :: ws3 ++ v0 ++ [BACKSLASH])
      :: map cont_text more ++ [wsl ++ last_frag]
  end.

(** The record of an entry: its name and its value. *)
Definition record_of (e : entry) : option (list ascii * list ascii) :=
  match e with
  | Comment _ => None
  | Property _ name _ _ rest => Some (name, drop_blanks rest)
  | Continued _ name _ _ _ v0 more _ last_frag =>
      Some (name, v0 ++ List.concat (map cont_value more) ++ last_frag)
  end.

(** The call to the environment for a record. *)
Definition env_call_of (name value : list ascii) : env_call :=
  match value with
  | [] => Unsetenv (map env_char name)
  | _ :: _ => Setenv (map env_char name) value true
  end.

Definition calls_of (e : entry) : list (option env_call) :=
  match record_of e with
  | Some (name, value) => [Some (env_call_of name value)]
  | None => []
  end.

(** The lines inside a record fit the buffer, of which [used] bytes are
    taken by the name, the null and the value so far. *)
Fixpoint conts_ok (capacity : Z) (crlf : bool) (used : Z)
    (more : list cont_line) : bool :=
  match more with
  | [] => true
  | Skipped text :: more' =>
      text_ok crlf text && comment_or_blank text
      && (len text <? capacity - used)
      && conts_ok capacity crlf used more'
  | Fragment ws frag :: more' =>
      all_blank ws && is_fragment frag
      && (len (ws ++ frag ++ [BACKSLASH]) <? capacity - used)
      && conts_ok capacity crlf (used + len frag) more'
  end.

(** An entry whose lines are as the format has them and fit the buffer. *)
Definition entry_ok (capacity : Z) (crlf : bool) (e : entry) : bool :=
  match e with
  | Comment text =>
      text_ok crlf text && comment_or_blank text && (len text <? capacity)
  | Property ws1 name ws2 sep rest =>
      let text := ws1 ++ name ++ ws2 ++ sep :: rest in
      text_ok crlf text && all_blank ws1 && is_name name && all_blank ws2
      && is_separator sep && no_nul rest
      && negb (last rest NUL =? BACKSLASH)%char
      && (len text <? capacity)
  | Continued ws1 name ws2 sep ws3 v0 more wsl last_frag =>
      let first := ws1 ++ name ++ ws2 ++ sep :: ws3 ++ v0 ++ [BACKSLASH] in
      let used := len name + 1 + len v0 + len (List.concat (map cont_value more)) in
      all_blank ws1 && is_name name && all_blank ws2 && is_separator sep
      && all_blank ws3 && is_value_text v0 && (len first <? capacity)
      && conts_ok capacity crlf (len name + 1 + len v0) more
      && all_blank wsl && is_fragment last_frag
      && match last_frag with [] => false | _ :: _ => true end
      && negb (last last_frag NUL =? BACKSLASH)%char
      && text_ok crlf (wsl ++ last_frag)
      && (len (wsl ++ last_frag) <? capacity - used)
  end.

(** The strings that [fgets] returns for the lines of the entries, and the
    lines with their lengths as the parser gets them. *)
Definition raw_lines (crlf : bool) (entries : list entry)
    : list (list ascii) :=
  map (raw_line crlf) (List.concat (map texts_of entries)).

Definition parsed_lines (entries : list entry) : list (list ascii * Z) :=
  map (fun text => (text, len text)) (List.concat (map texts_of entries)).

(** A file for the witnesses: a comment, a record on one line, a record
    over three lines with a comment inside, a blank line and a record
    without value. *)
Definition sample_entries : list entry :=
  [ Comment (chars "# header");
    Property [] (chars "foo.bar") (chars " ") "="%char (chars " baz");
    Continued [] (chars "key") [] ":"%char [] (chars "one")
      [Fragment (chars "  ") (chars "two"); Skipped (chars "! inside")]
      (chars "  ") (chars "three");
    Comment [];
    Property [] (chars "novalue") [] "="%char [] ].

(** A lower-case letter of ASCII. *)
Definition is_lower (c : ascii) : bool :=
  ((97 <=? nat_of_ascii c) && (nat_of_ascii c <=? 122))%nat.

(** The carriage return in front of the newline is taken off. *)
Definition strip_cr (body : list ascii) : list ascii :=
  if (last body NUL =? CR)%char then removelast body else body.

(** ** Machine integers in range *)

Lemma size_t_small (z : Z) : 0 <= z < 2 ^ 64 -> C.size_t z = z.
Proof. intros H. unfold C.size_t. apply Z.mod_small. exact H. Qed.

Lemma int_small (z : Z) : - 2 ^ 31 <= z < 2 ^ 31 -> C.int z = z.
Proof. intros H. unfold C.int. rewrite Z.mod_small; lia. Qed.

Lemma len_app (a b : list ascii) : len (a ++ b) = len a + len b.
Proof. unfold len. rewrite length_app. lia. Qed.

Lemma len_nonneg (a : list ascii) : 0 <= len a.
Proof. unfold len. lia. Qed.

Lemma len_cons (c : ascii) (a : list ascii) : len (c :: a) = 1 + len a.
Proof. unfold len. simpl List.length. lia. Qed.

Lemma len_nil : len [] = 0.
Proof. reflexivity. Qed.

(** Lengths of concatenations as sums. *)
Ltac len_norm :=
  repeat (rewrite len_app || rewrite len_cons || rewrite len_nil).

(** ** The scanner *)

Lemma is_blank_not_nul (c : ascii) : is_blank c = true -> (c =? NUL)%char = false.
Proof.
  unfold is_blank. intros H. apply orb_true_iff in H.
  destruct H as [H | H]; apply Ascii.eqb_eq in H; subst c; reflexivity.
Qed.

Lemma scan_from_blanks (ws rest : list ascii) (i e : Z) :
  all_blank ws = true -> i + len ws <= e + 1 ->
  scan_from (ws ++ rest) i e = scan_from rest (i + len ws) e.
Proof.
  revert i. induction ws as [| c ws IH]; intros i Hb Hle.
  - simpl. f_equal. unfold len. simpl. lia.
  - simpl in Hb. apply andb_true_iff in Hb. destruct Hb as [Hc Hws].
    rewrite len_cons in Hle. pose proof (len_nonneg ws) as Hn.
    simpl. replace (e <? i) with false by (symmetry; apply Z.ltb_ge; lia).
    rewrite Hc. rewrite IH by (auto; lia).
    f_equal. rewrite len_cons. lia.
Qed.

Lemma scan_from_all_blank (ws : list ascii) (i e : Z) :
  all_blank ws = true -> scan_from ws i e = -1.
Proof.
  revert i. induction ws as [| c ws IH]; intros i Hb.
  - simpl. destruct (e <? i); reflexivity.
  - simpl in Hb. apply andb_true_iff in Hb. destruct Hb as [Hc Hws].
    simpl. rewrite Hc. destruct (e <? i); auto.
Qed.

Lemma scan_from_found (c : ascii) (rest : list ascii) (i e : Z) :
  is_blank c = false -> (c =? NUL)%char = false -> i <= e ->
  scan_from (c :: rest) i e = C.int i.
Proof.
  intros Hb Hn Hle. simpl.
  replace (e <? i) with false by (symmetry; apply Z.ltb_ge; lia).
  rewrite Hb, Hn. reflexivity.
Qed.

Lemma skipn_len_app (pre rest : list ascii) :
  skipn (Z.to_nat (len pre)) (pre ++ rest) = rest.
Proof.
  unfold len. rewrite Nat2Z.id. rewrite skipn_app, skipn_all, Nat.sub_diag.
  reflexivity.
Qed.

Lemma char_at_app (pre : list ascii) (c : ascii) (rest : list ascii) :
  char_at (pre ++ c :: rest) (len pre) = c.
Proof.
  unfold char_at, len.
  replace (Z.of_nat (List.length pre) <? 0) with false
    by (symmetry; apply Z.ltb_ge; lia).
  rewrite Nat2Z.id. rewrite app_nth2 by lia. rewrite Nat.sub_diag. reflexivity.
Qed.

Lemma drop_blanks_app (ws rest : list ascii) :
  all_blank ws = true -> drop_blanks (ws ++ rest) = drop_blanks rest.
Proof.
  induction ws as [| c ws IH]; intros Hb; [reflexivity |].
  simpl in Hb. apply andb_true_iff in Hb. destruct Hb as [Hc Hws].
  simpl. rewrite Hc. auto.
Qed.

(** A line splits into its leading blanks and the rest. *)
Lemma drop_blanks_split (l : list ascii) :
  exists ws, l = ws ++ drop_blanks l /\ all_blank ws = true.
Proof.
  induction l as [| c l IH].
  - exists []. split; reflexivity.
  - simpl. destruct (is_blank c) eqn:Hc.
    + destruct IH as [ws [Heq Hb]]. exists (c :: ws). split.
      * simpl. f_equal. exact Heq.
      * simpl. rewrite Hc. exact Hb.
    + exists []. split; reflexivity.
Qed.

Lemma drop_blanks_head (l : list ascii) (c : ascii) (r : list ascii) :
  drop_blanks l = c :: r -> is_blank c = false.
Proof.
  induction l as [| d l IH]; simpl; [discriminate |].
  destruct (is_blank d) eqn:Hd; [exact IH |].
  intros H. injection H as H1 H2. subst d. exact Hd.
Qed.

Lemma is_comment_not_nul (c : ascii) :
  is_comment c = true -> (c =? NUL)%char = false.
Proof.
  unfold is_comment. intros H. apply orb_true_iff in H.
  destruct H as [H | H]; apply Ascii.eqb_eq in H; subst c; reflexivity.
Qed.

(** On a comment or blank line the scan from 0 gives -1 or the index of a
    comment character. *)
Lemma scan_comment_or_blank (line : list ascii) :
  comment_or_blank line = true -> len line < 2 ^ 31 ->
  let cursor := aeron_next_non_whitespace line 0 (C.size_t (len line - 1)) in
  (cursor =? -1) || is_comment (char_at line cursor) = true.
Proof.
  intros Hc Hlen. unfold aeron_next_non_whitespace. simpl skipn.
  unfold comment_or_blank in Hc.
  destruct (drop_blanks_split line) as [ws [Heq Hb]].
  destruct (drop_blanks line) as [| c r] eqn:Hd.
  - rewrite app_nil_r in Heq. subst ws.
    rewrite scan_from_all_blank by exact Hb. reflexivity.
  - pose proof (drop_blanks_head _ _ _ Hd) as Hcb.
    pose proof (is_comment_not_nul _ Hc) as Hcn.
    pose proof (len_nonneg ws) as Hws. pose proof (len_nonneg r) as Hr.
    clear Hd. subst line. rewrite len_app, len_cons in *.
    rewrite size_t_small by lia.
    rewrite scan_from_blanks by (auto; lia).
    rewrite scan_from_found by (auto; lia).
    rewrite int_small by lia.
    rewrite char_at_app. rewrite Hc.
    apply orb_true_r.
Qed.

(** ** Stores *)

Lemma range_cons (p : Z) (n : nat) : range p (S n) = p :: range (p + 1) n.
Proof.
  unfold range. simpl. f_equal; [lia |].
  rewrite <- seq_shift, map_map. apply map_ext. intros j. lia.
Qed.

Lemma range_bounds (p : Z) (n : nat) (i : Z) :
  In i (range p n) -> p <= i < p + Z.of_nat n.
Proof.
  unfold range. rewrite in_map_iff. intros [j [Hj Hin]].
  apply in_seq in Hin. lia.
Qed.

Lemma memcpy_name_end (s : list ascii) (m : run) (p : Z) :
  name_end (fst (memcpy m p s)) = name_end (fst m).
Proof. revert m p. induction s; intros; simpl; [| rewrite IHs]; reflexivity. Qed.

Lemma memcpy_value_end (s : list ascii) (m : run) (p : Z) :
  value_end (fst (memcpy m p s)) = value_end (fst m).
Proof. revert m p. induction s; intros; simpl; [| rewrite IHs]; reflexivity. Qed.

Lemma memcpy_writes (s : list ascii) (m : run) (p : Z) :
  snd (memcpy m p s) = snd m ++ range p (List.length s).
Proof.
  revert m p. induction s as [| c s IH]; intros m p.
  - simpl. rewrite app_nil_r. reflexivity.
  - simpl memcpy. rewrite IH. simpl snd. simpl List.length.
    rewrite range_cons, <- app_assoc. reflexivity.
Qed.

Lemma memcpy_mem (s : list ascii) (m : run) (p k : Z) :
  property_str (fst (memcpy m p s)) k = blit (property_str (fst m)) p s k.
Proof.
  revert m p. induction s as [| c s IH]; intros m p.
  - unfold blit, len. simpl.
    replace ((p <=? k) && (k <? p + 0)) with false; [reflexivity |].
    symmetry. apply andb_false_iff.
    destruct (Z.leb_spec p k); [right; apply Z.ltb_ge; lia | left; reflexivity].
  - simpl memcpy. rewrite IH. unfold blit. rewrite len_cons.
    pose proof (len_nonneg s) as Hs. simpl property_str.
    destruct (Z.leb_spec (p + 1) k) as [H1 | H1];
      destruct (Z.ltb_spec k (p + 1 + len s)) as [H2 | H2];
      destruct (Z.leb_spec p k) as [H3 | H3];
      destruct (Z.ltb_spec k (p + (1 + len s))) as [H4 | H4];
      try lia; simpl andb; cbv iota.
    + replace (Z.to_nat (k - p)) with (S (Z.to_nat (k - (p + 1)))) by lia.
      reflexivity.
    + replace (k =? p) with false by (symmetry; apply Z.eqb_neq; lia).
      reflexivity.
    + replace (k =? p) with true by (symmetry; apply Z.eqb_eq; lia).
      replace (k - p) with 0 by lia. reflexivity.
    + replace (k =? p) with false by (symmetry; apply Z.eqb_neq; lia).
      reflexivity.
Qed.

(** The bytes that [memcpy] reads from the middle of a line. *)
Lemma bytes_from_middle (pre body post : list ascii) :
  bytes_from (pre ++ body ++ post) (len pre) (len body) = body.
Proof.
  unfold bytes_from, len. rewrite Nat2Z.id.
  apply nth_ext with (d := char_at (pre ++ body ++ post)
                             (Z.of_nat (List.length pre) + Z.of_nat 0))
                     (d' := NUL).
  - rewrite length_map, length_seq. reflexivity.
  - intros n Hn. rewrite length_map, length_seq in Hn.
    rewrite (map_nth (fun k => char_at (pre ++ body ++ post)
                                 (Z.of_nat (List.length pre) + Z.of_nat k))).
    rewrite seq_nth by exact Hn. simpl plus.
    unfold char_at.
    replace (Z.of_nat (List.length pre) + Z.of_nat n <? 0) with false
      by (symmetry; apply Z.ltb_ge; lia).
    replace (Z.to_nat (Z.of_nat (List.length pre) + Z.of_nat n))
      with (List.length pre + n)%nat by lia.
    rewrite app_nth2_plus. apply app_nth1. exact Hn.
Qed.

(** Reading back a C string that memory holds. *)
Lemma c_string_reads (s : list ascii) (fuel : nat) (mem : Z -> ascii) (p : Z) :
  no_nul s = true ->
  (forall k, (k < List.length s)%nat -> mem (p + Z.of_nat k) = nth k s NUL) ->
  mem (p + len s) = NUL ->
  (List.length s < fuel)%nat ->
  c_string fuel mem p = s.
Proof.
  revert fuel p. induction s as [| c s IH]; intros fuel p Hn Hm Hz Hf.
  - destruct fuel as [| fuel]; [reflexivity |]. simpl.
    unfold len in Hz. simpl in Hz. rewrite Z.add_0_r in Hz. rewrite Hz.
    reflexivity.
  - destruct fuel as [| fuel]; [simpl in Hf; lia |].
    simpl in Hn. apply andb_true_iff in Hn. destruct Hn as [Hc Hn].
    apply negb_true_iff in Hc.
    pose proof (Hm 0%nat ltac:(simpl; lia)) as H0. simpl in H0.
    rewrite Z.add_0_r in H0.
    simpl. rewrite H0, Hc. f_equal.
    apply IH.
    + exact Hn.
    + intros k Hk. specialize (Hm (S k) ltac:(simpl; lia)). simpl nth in Hm.
      rewrite <- Hm. f_equal. lia.
    + rewrite <- Hz. f_equal. rewrite len_cons. lia.
    + simpl in Hf. lia.
Qed.

(** ** The loops over the name *)

Lemma trim_n_name_end (k : nat) (m : run) :
  name_end (fst (trim_n k m)) = name_end (fst m) - Z.of_nat k.
Proof.
  revert m. induction k as [| k IH]; intros m.
  - simpl. lia.
  - simpl trim_n. rewrite IH. simpl. lia.
Qed.

Lemma trim_n_value_end (k : nat) (m : run) :
  value_end (fst (trim_n k m)) = value_end (fst m).
Proof.
  revert m. induction k as [| k IH]; intros m; simpl; [| rewrite IH];
    reflexivity.
Qed.

Lemma trim_n_mem (k : nat) (m : run) (j : Z) :
  property_str (fst (trim_n k m)) j
  = if (name_end (fst m) - Z.of_nat k <=? j) && (j <? name_end (fst m))
    then NUL else property_str (fst m) j.
Proof.
  revert m. induction k as [| k IH]; intros m.
  - simpl trim_n. rewrite Z.sub_0_r.
    destruct (Z.leb_spec (name_end (fst m)) j);
      destruct (Z.ltb_spec j (name_end (fst m))); try lia; reflexivity.
  - simpl trim_n. rewrite IH. simpl name_end. simpl property_str.
    destruct (Z.leb_spec (name_end (fst m) - 1 - Z.of_nat k) j);
      destruct (Z.ltb_spec j (name_end (fst m) - 1));
      destruct (Z.leb_spec (name_end (fst m) - Z.of_nat (S k)) j);
      destruct (Z.ltb_spec j (name_end (fst m)));
      destruct (Z.eqb_spec j (name_end (fst m) - 1));
      try lia; reflexivity.
Qed.

Lemma trim_n_writes (k : nat) (m : run) (i : Z) :
  In i (snd (trim_n k m)) ->
  In i (snd m) \/ name_end (fst m) - Z.of_nat k <= i < name_end (fst m).
Proof.
  revert m. induction k as [| k IH]; intros m.
  - simpl. auto.
  - simpl trim_n. intros H. apply IH in H. simpl in H.
    destruct H as [H | H].
    + apply in_app_or in H. destruct H as [H | [H | []]]; [auto |].
      right. lia.
    + right. lia.
Qed.

(** The trimming loop over blanks. *)
Lemma trim_loop_blanks (ws pre post : list ascii) (m : run) :
  all_blank ws = true ->
  trim_loop (List.length pre + List.length ws) (pre ++ ws ++ post) m
  = trim_loop (List.length pre) (pre ++ ws ++ post) (trim_n (List.length ws) m).
Proof.
  revert post m. induction ws as [| c ws IH] using rev_ind; intros post m Hb.
  - simpl. rewrite Nat.add_0_r. reflexivity.
  - unfold all_blank in Hb. rewrite forallb_app in Hb.
    apply andb_true_iff in Hb. destruct Hb as [Hws Hc].
    simpl in Hc. rewrite andb_true_r in Hc.
    rewrite length_app. simpl List.length.
    replace (List.length pre + (List.length ws + 1))%nat
      with (S (List.length pre + List.length ws)) by lia.
    simpl trim_loop.
    replace (nth (List.length pre + List.length ws)
               (pre ++ (ws ++ [c]) ++ post) NUL) with c.
    2:{ rewrite app_nth2_plus. rewrite <- app_assoc.
        rewrite app_nth2 by lia. rewrite Nat.sub_diag. reflexivity. }
    rewrite Hc. rewrite <- app_assoc. rewrite IH by exact Hws.
    replace (List.length ws + 1)%nat with (S (List.length ws)) by lia.
    reflexivity.
Qed.

(** The trimming loop stops at a character that is no blank. *)
Lemma trim_loop_stops (pre : list ascii) (c : ascii) (post : list ascii)
    (m : run) :
  is_blank c = false ->
  trim_loop (List.length (pre ++ [c])) ((pre ++ [c]) ++ post) m = m.
Proof.
  intros Hc. rewrite length_app. simpl List.length.
  replace (List.length pre + 1)%nat with (S (List.length pre)) by lia.
  simpl trim_loop. rewrite <- app_assoc. rewrite app_nth2 by lia.
  rewrite Nat.sub_diag. simpl nth. rewrite Hc. reflexivity.
Qed.

(** The number of rounds of the trimming loop from [j = i - 1]. *)
Lemma trim_count (i : Z) :
  0 <= i < 2 ^ 31 -> Z.to_nat (C.int (C.size_t (i - 1)) + 1) = Z.to_nat i.
Proof.
  intros H. destruct (Z.eq_dec i 0) as [-> | Hi]; [reflexivity |].
  rewrite size_t_small by lia. rewrite int_small by lia. f_equal. lia.
Qed.

Lemma memcpy_set_name_end (s : list ascii) (m : run) (a p : Z) :
  memcpy (set_name_end m a) p s = set_name_end (memcpy m p s) a.
Proof.
  revert m p. induction s as [| c s IH]; intros m p; [reflexivity |].
  simpl memcpy.
  change (poke (set_name_end m a) p c) with (set_name_end (poke m p c) a).
  apply IH.
Qed.

(** The loop over the name on a stretch without separator copies it. *)
Lemma name_loop_copies (body pre post : list ascii) (n : nat) (m : run)
    (vs : Z) :
  no_separator body = true ->
  name_loop (List.length body + n) (pre ++ body ++ post) (len pre) m vs
  = name_loop n (pre ++ body ++ post) (len pre + len body)
      (set_name_end (memcpy m (name_end (fst m)) body)
         (name_end (fst m) + len body)) vs.
Proof.
  revert pre m. induction body as [| c body IH]; intros pre m Hs.
  - simpl. unfold len at 2 4. simpl. rewrite !Z.add_0_r.
    destruct m as [[mem ne ve] w]. reflexivity.
  - simpl in Hs. apply andb_true_iff in Hs. destruct Hs as [Hc Hs].
    apply negb_true_iff in Hc.
    simpl List.length. simpl plus. simpl name_loop.
    rewrite char_at_app. rewrite Hc.
    replace (pre ++ c :: body ++ post) with ((pre ++ [c]) ++ body ++ post)
      by (rewrite <- app_assoc; reflexivity).
    replace (len pre + 1) with (len (pre ++ [c]))
      by (rewrite len_app; reflexivity).
    rewrite IH by exact Hs.
    f_equal.
    + rewrite len_app, !len_cons. change (len []) with 0. lia.
    + simpl name_end. rewrite memcpy_set_name_end.
      simpl memcpy. unfold set_name_end. simpl.
      f_equal. f_equal. rewrite len_cons. lia.
Qed.

Lemma all_blank_no_separator (ws : list ascii) :
  all_blank ws = true -> no_separator ws = true.
Proof.
  unfold all_blank, no_separator. rewrite !forallb_forall.
  intros H c Hc. specialize (H c Hc). unfold is_blank in H.
  apply orb_true_iff in H.
  destruct H as [H | H]; apply Ascii.eqb_eq in H; subst c; reflexivity.
Qed.

Lemma no_separator_app (a b : list ascii) :
  no_separator a = true -> no_separator b = true ->
  no_separator (a ++ b) = true.
Proof.
  unfold no_separator. rewrite forallb_app. intros -> ->. reflexivity.
Qed.

(** The loop over the name on a line [ws1 ++ name ++ ws2 ++ sep :: rest]
    from the state with [name_end] at zero: the buffer holds the name and a
    null after it, and the stores lie between 0 and the place of the first
    null. *)
Lemma name_phase (st : aeron_properties_parser_state_t)
    (ws1 nm : list ascii) (cl : ascii) (ws2 : list ascii) (sep : ascii)
    (rest : list ascii) :
  let name := nm ++ [cl] in
  let line := ws1 ++ name ++ ws2 ++ sep :: rest in
  name_end st = 0 ->
  no_separator name = true -> is_blank cl = false ->
  all_blank ws2 = true -> is_separator sep = true ->
  len line < 2 ^ 31 ->
  exists m,
    name_loop (Z.to_nat (len line - len ws1)) line (len ws1) (st, []) 0
    = (m, len ws1 + len name + len ws2 + 1) /\
    holds (fst m) name [] /\
    (forall i, In i (snd m) -> 0 <= i <= len name + len ws2).
Proof.
  intros name line Hne Hname Hcl Hws2 Hsep Hlen.
  pose proof (len_nonneg ws1) as L1. pose proof (len_nonneg name) as L2.
  pose proof (len_nonneg ws2) as L3. pose proof (len_nonneg rest) as L4.
  assert (Hl : len line = len ws1 + (len name + (len ws2 + (1 + len rest)))).
  { unfold line. rewrite !len_app, len_cons. reflexivity. }
  replace (Z.to_nat (len line - len ws1))
    with (List.length (name ++ ws2) + S (List.length rest))%nat.
  2:{ rewrite Hl. rewrite length_app. unfold len. lia. }
  replace line with (ws1 ++ (name ++ ws2) ++ sep :: rest)
    by (unfold line; rewrite <- !app_assoc; reflexivity).
  rewrite name_loop_copies
    by (apply no_separator_app; auto using all_blank_no_separator).
  set (M0 := set_name_end (memcpy (st, []) (name_end (fst (st, []))) (name ++ ws2))
               (name_end (fst (st, [])) + len (name ++ ws2))).
  simpl name_loop.
  replace (len ws1 + len (name ++ ws2)) with (len (ws1 ++ name ++ ws2))
    by (rewrite !len_app; reflexivity).
  replace (ws1 ++ (name ++ ws2) ++ sep :: rest)
    with ((ws1 ++ name ++ ws2) ++ sep :: rest)
    by (rewrite <- !app_assoc; reflexivity).
  rewrite char_at_app. rewrite Hsep.
  rewrite trim_count by (rewrite !len_app; lia).
  set (M1 := poke M0 (name_end (fst M0)) NUL).
  replace (Z.to_nat (len (ws1 ++ name ++ ws2)))
    with (List.length (ws1 ++ name) + List.length ws2)%nat
    by (unfold len; rewrite Nat2Z.id, !length_app; lia).
  replace ((ws1 ++ name ++ ws2) ++ sep :: rest)
    with ((ws1 ++ name) ++ ws2 ++ sep :: rest)
    by (rewrite <- !app_assoc; reflexivity).
  rewrite trim_loop_blanks by exact Hws2.
  replace (ws1 ++ name) with ((ws1 ++ nm) ++ [cl])
    by (unfold name; rewrite <- app_assoc; reflexivity).
  rewrite trim_loop_stops by exact Hcl.
  set (M2 := trim_n (List.length ws2) M1).
  assert (Hne1 : name_end (fst M1) = len name + len ws2).
  { unfold M1, M0. simpl. rewrite Hne, len_app. lia. }
  assert (Hne2 : name_end (fst M2) = len name).
  { unfold M2. rewrite trim_n_name_end, Hne1. unfold len. lia. }
  exists (set_value_end M2 (name_end (fst M2) + 1)). split; [| split].
  - f_equal. rewrite size_t_small by (rewrite !len_app; unfold name in *; lia).
    rewrite int_small by (rewrite !len_app; unfold name in *; lia).
    rewrite !len_app. unfold name. rewrite !len_app. lia.
  - unfold holds, set_value_end. simpl fst. simpl name_end. simpl value_end.
    rewrite Hne2. change (len []) with 0.
    split; [reflexivity | split; [lia |]].
    intros k Hk. simpl property_str. unfold M2. rewrite trim_n_mem, Hne1.
    rewrite length_app in Hk. simpl in Hk.
    assert (Hmem1 : forall j, property_str (fst M1) j
              = if j =? len name + len ws2 then NUL
                else blit (property_str st) 0 (name ++ ws2) j).
    { intros j. unfold M1. simpl property_str. rewrite memcpy_mem.
      fold M0. rewrite <- Hne1. unfold M1. simpl name_end. simpl fst.
      rewrite Hne. reflexivity. }
    rewrite Hmem1.
    destruct (Nat.eq_dec k (List.length name)) as [-> | Hkn].
    + rewrite app_nth2 by lia. rewrite Nat.sub_diag. simpl nth.
      fold (len name).
      destruct (Z.leb_spec (len name + len ws2 - Z.of_nat (List.length ws2))
                  (len name));
        destruct (Z.ltb_spec (len name) (len name + len ws2));
        simpl andb; cbv iota; try reflexivity; unfold len in *; try lia.
      replace (Z.of_nat (List.length name)
               =? Z.of_nat (List.length name) + Z.of_nat (List.length ws2))
        with true by (symmetry; apply Z.eqb_eq; lia).
      reflexivity.
    + rewrite app_nth1 by lia.
      replace ((len name + len ws2 - Z.of_nat (List.length ws2) <=? Z.of_nat k)
               && (Z.of_nat k <? len name + len ws2)) with false.
      2:{ symmetry. apply andb_false_iff. left. apply Z.leb_gt.
          unfold len. lia. }
      replace (Z.of_nat k =? len name + len ws2) with false
        by (symmetry; apply Z.eqb_neq; unfold len; lia).
      unfold blit. rewrite len_app.
      replace ((0 <=? Z.of_nat k) && (Z.of_nat k <? 0 + (len name + len ws2)))
        with true.
      2:{ symmetry. apply andb_true_iff. split;
            [apply Z.leb_le | apply Z.ltb_lt]; unfold len; lia. }
      rewrite Z.sub_0_r, Nat2Z.id. apply app_nth1. lia.
  - intros i Hi. simpl snd in Hi. unfold M2 in Hi.
    apply trim_n_writes in Hi. rewrite Hne1 in Hi.
    destruct Hi as [Hi | Hi]; [| unfold len in *; lia].
    unfold M1 in Hi. simpl snd in Hi. apply in_app_or in Hi.
    destruct Hi as [Hi | [Hi | []]].
    + rewrite memcpy_writes in Hi. simpl in Hi. apply range_bounds in Hi.
      rewrite length_app in Hi. unfold len. lia.
    + fold M1 in Hi. unfold M0 in Hi. simpl in Hi. rewrite len_app in Hi. lia.
Qed.

(** ** The value *)

(** The scan for the first character of the value in the rest of a line. *)
Lemma scan_rest (pre rest : list ascii) :
  no_nul rest = true -> len (pre ++ rest) < 2 ^ 31 ->
  aeron_next_non_whitespace (pre ++ rest) (len pre)
    (C.size_t (len (pre ++ rest) - 1))
  = match drop_blanks rest with
    | [] => -1
    | _ :: _ => len (pre ++ rest) - len (drop_blanks rest)
    end.
Proof.
  intros Hn Hlen. unfold aeron_next_non_whitespace. rewrite skipn_len_app.
  destruct (drop_blanks_split rest) as [ws [Heq Hb]].
  pose proof (len_nonneg pre) as Lp. pose proof (len_nonneg ws) as Lw.
  destruct (drop_blanks rest) as [| c r] eqn:Hd.
  - rewrite app_nil_r in Heq. subst ws. apply scan_from_all_blank. exact Hb.
  - pose proof (drop_blanks_head _ _ _ Hd) as Hcb.
    pose proof (len_nonneg r) as Lr.
    assert (Hcn : (c =? NUL)%char = false).
    { rewrite Heq in Hn. unfold no_nul in Hn. rewrite forallb_app in Hn.
      apply andb_true_iff in Hn. destruct Hn as [_ Hn]. simpl in Hn.
      apply andb_true_iff in Hn. destruct Hn as [Hn _].
      apply negb_true_iff in Hn. exact Hn. }
    clear Hd. rewrite Heq in *. rewrite !len_app, len_cons in *.
    rewrite size_t_small by lia.
    rewrite scan_from_blanks by (auto; lia).
    rewrite scan_from_found by (auto; lia).
    rewrite int_small by lia. lia.
Qed.

(** Appending to the value keeps the record in the buffer. *)
Lemma holds_append (m : run) (name prev body : list ascii) :
  holds (fst m) name prev ->
  holds (fst (set_value_end (memcpy m (value_end (fst m)) body)
                (value_end (fst m) + len body))) name (prev ++ body).
Proof.
  intros [Hne [Hve Hmem]]. unfold holds. simpl fst. simpl name_end.
  simpl value_end. simpl property_str.
  rewrite memcpy_name_end. split; [exact Hne | split].
  - rewrite Hve, len_app. lia.
  - intros k Hk. rewrite memcpy_mem. unfold blit. rewrite Hve.
    assert (Hl : len name + 1 + len prev
                 = Z.of_nat (List.length (name ++ NUL :: prev))).
    { rewrite length_app. simpl. unfold len. lia. }
    replace (name ++ NUL :: prev ++ body)
      with ((name ++ NUL :: prev) ++ body) in *
      by (rewrite <- app_assoc; reflexivity).
    rewrite length_app in Hk. rewrite Hl.
    destruct (Nat.lt_ge_cases k (List.length (name ++ NUL :: prev))) as [H | H].
    + replace (Z.of_nat (List.length (name ++ NUL :: prev)) <=? Z.of_nat k)
        with false by (symmetry; apply Z.leb_gt; lia).
      simpl andb. cbv iota. rewrite app_nth1 by exact H. apply Hmem. exact H.
    + replace ((Z.of_nat (List.length (name ++ NUL :: prev)) <=? Z.of_nat k)
               && (Z.of_nat k
                   <? Z.of_nat (List.length (name ++ NUL :: prev)) + len body))
        with true.
      2:{ symmetry. apply andb_true_iff. split;
            [apply Z.leb_le | apply Z.ltb_lt]; unfold len; lia. }
      rewrite app_nth2 by exact H. f_equal. lia.
Qed.

(** The record in the buffer once the final null is stored. *)
Lemma holds_terminated (m : run) (name value : list ascii) :
  holds (fst m) name value ->
  let m' := set_value_end (poke m (value_end (fst m)) NUL)
              (value_end (fst m) + 1) in
  name_end (fst m') = len name /\
  forall k, (k < List.length (name ++ NUL :: value ++ [NUL]))%nat ->
    property_str (fst m') (Z.of_nat k)
    = nth k (name ++ NUL :: value ++ [NUL]) NUL.
Proof.
  intros [Hne [Hve Hmem]]. simpl. split; [exact Hne |].
  intros k Hk. rewrite Hve.
  assert (Hl : len name + 1 + len value
               = Z.of_nat (List.length (name ++ NUL :: value))).
  { rewrite length_app. simpl. unfold len. lia. }
  replace (name ++ NUL :: value ++ [NUL])
    with ((name ++ NUL :: value) ++ [NUL]) in *
    by (rewrite <- app_assoc; reflexivity).
  rewrite length_app in Hk. simpl in Hk. rewrite Hl.
  destruct (Z.eqb_spec (Z.of_nat k)
              (Z.of_nat (List.length (name ++ NUL :: value)))) as [H | H].
  - apply Nat2Z.inj in H. subst k. rewrite app_nth2 by lia.
    rewrite Nat.sub_diag. reflexivity.
  - rewrite app_nth1 by lia. apply Hmem. lia.
Qed.

Section Parser_facts.

Variable capacity : Z.
Hypothesis capacity_range : 0 < capacity <= C.INT_MAX.

(** The test [length >= sizeof(state->property_str) - state->value_end] on a
    state whose [value_end] lies in the array. *)
Lemma bound_check (st : aeron_properties_parser_state_t) (length : Z) :
  0 <= value_end st <= capacity ->
  (length >=? C.size_t (capacity - C.size_t (value_end st)))
  = (length >=? capacity - value_end st).
Proof.
  intros H. unfold C.INT_MAX in capacity_range.
  rewrite (size_t_small (value_end st)) by lia.
  rewrite size_t_small by lia. reflexivity.
Qed.

(** A comment or blank line within the bound leaves everything as it is. *)
Lemma skips_comment_or_blank (st : aeron_properties_parser_state_t)
    (line : list ascii) (handler : aeron_properties_file_handler_func_t) :
  0 <= value_end st <= capacity ->
  len line < capacity - value_end st ->
  comment_or_blank line = true ->
  aeron_properties_parse_line capacity st line (len line) handler
  = {| result := 0; state := st; error := None; emitted := None;
       writes := [] |}.
Proof.
  intros Hve Hlen Hc.
  unfold aeron_properties_parse_line.
  rewrite bound_check by exact Hve.
  rewrite Z.geb_leb.
  replace (capacity - value_end st <=? len line) with false
    by (symmetry; apply Z.leb_gt; lia).
  unfold C.INT_MAX in capacity_range.
  pose proof (scan_comment_or_blank line Hc ltac:(lia)) as Hs.
  cbv zeta in Hs. rewrite Hs.
  destruct (0 <? name_end st); reflexivity.
Qed.

(** The bound check on a line too long for the state. *)
Lemma line_too_long_bound (st : aeron_properties_parser_state_t)
    (line : list ascii) (length : Z)
    (handler : aeron_properties_file_handler_func_t) :
  - 2 ^ 31 <= value_end st <= capacity ->
  0 <= length < 2 ^ 64 ->
  length >= capacity - value_end st ->
  let o := aeron_properties_parse_line capacity st line length handler in
  result o = -1 /\ state o = st /\
  error o = Some (Line_too_long (C.size_t (length + C.size_t (value_end st)))) /\
  emitted o = None /\ writes o = [].
Proof.
  intros Hve Hlen Hge. unfold C.INT_MAX in capacity_range.
  assert (Hb : C.size_t (capacity - C.size_t (value_end st))
               = capacity - value_end st).
  { destruct (Z_lt_le_dec (value_end st) 0) as [Hneg | Hpos].
    - unfold C.size_t at 2.
      replace (value_end st) with (value_end st + 2 ^ 64 + (-1) * 2 ^ 64) at 1
        by lia.
      rewrite Z.mod_add by lia. rewrite Z.mod_small by lia.
      unfold C.size_t.
      replace (capacity - (value_end st + 2 ^ 64))
        with (capacity - value_end st + (-1) * 2 ^ 64) by lia.
      rewrite Z.mod_add by lia. apply Z.mod_small. lia.
    - rewrite (size_t_small (value_end st)) by lia.
      apply size_t_small. lia. }
  unfold aeron_properties_parse_line. rewrite Hb.
  replace (length >=? capacity - value_end st) with true
    by (symmetry; rewrite Z.geb_leb; apply Z.leb_le; lia).
  cbv zeta. simpl. repeat split; reflexivity.
Qed.

(** The handler receives the name and the value that the buffer holds. *)
Lemma emit_reads (m : run) (name value : list ascii)
    (handler : aeron_properties_file_handler_func_t) :
  name_end (fst m) = len name ->
  (forall k, (k < List.length (name ++ NUL :: value ++ [NUL]))%nat ->
     property_str (fst m) (Z.of_nat k)
     = nth k (name ++ NUL :: value ++ [NUL]) NUL) ->
  no_nul name = true -> no_nul value = true ->
  len name < capacity -> len value < capacity ->
  emit capacity m handler
  = {| result := handler name value;
       state := aeron_properties_parse_init (fst m);
       error := None; emitted := Some (name, value); writes := snd m |}.
Proof.
  intros Hne Hmem Hn Hv Hln Hlv. unfold emit.
  assert (H1 : c_string (Z.to_nat capacity) (property_str (fst m)) 0 = name).
  { apply c_string_reads; [exact Hn | | | unfold len in Hln; lia].
    - intros k Hk. rewrite Z.add_0_l. rewrite Hmem.
      + apply app_nth1. exact Hk.
      + rewrite length_app. lia.
    - rewrite Z.add_0_l. unfold len. rewrite Hmem.
      + rewrite app_nth2 by lia. rewrite Nat.sub_diag. reflexivity.
      + rewrite length_app. simpl. lia. }
  assert (H2 : c_string (Z.to_nat capacity) (property_str (fst m))
                 (name_end (fst m) + 1) = value).
  { rewrite Hne.
    apply c_string_reads; [exact Hv | | | unfold len in Hlv; lia].
    - intros k Hk.
      replace (len name + 1 + Z.of_nat k)
        with (Z.of_nat (List.length name + S k)) by (unfold len; lia).
      rewrite Hmem by (rewrite length_app; simpl; rewrite length_app; lia).
      rewrite app_nth2_plus. simpl nth. apply app_nth1. exact Hk.
    - replace (len name + 1 + len value)
        with (Z.of_nat (List.length name + S (List.length value)))
        by (unfold len; lia).
      rewrite Hmem
        by (rewrite length_app; simpl; rewrite length_app; simpl; lia).
      rewrite app_nth2_plus. simpl nth. rewrite app_nth2 by lia.
      rewrite Nat.sub_diag. reflexivity. }
  rewrite H1, H2. reflexivity.
Qed.

(** The rest of a line that ends in a backslash is appended without the
    backslash, and nothing is emitted. *)
Lemma accumulate_continues (m : run) (pre b : list ascii)
    (handler : aeron_properties_file_handler_func_t) :
  let line := pre ++ b ++ [BACKSLASH] in
  0 <= value_end (fst m) -> len line < 2 ^ 31 ->
  value_end (fst m) + len b < 2 ^ 31 ->
  accumulate capacity m line (len line) (len pre) handler
  = {| result := 0;
       state := fst (set_value_end (memcpy m (value_end (fst m)) b)
                       (value_end (fst m) + len b));
       error := None; emitted := None;
       writes := snd (memcpy m (value_end (fst m)) b) |}.
Proof.
  intros line Hve Hlen Hsum.
  pose proof (len_nonneg pre) as Lp. pose proof (len_nonneg b) as Lb.
  assert (Hl : len line = len pre + (len b + 1)).
  { unfold line. rewrite !len_app. reflexivity. }
  unfold accumulate. rewrite Hl.
  rewrite (size_t_small (len pre + (len b + 1) - 1)) by lia.
  replace (len pre + (len b + 1) - 1) with (len (pre ++ b))
    by (rewrite len_app; lia).
  replace line with ((pre ++ b) ++ [BACKSLASH])
    by (unfold line; rewrite <- app_assoc; reflexivity).
  rewrite char_at_app. rewrite Ascii.eqb_refl.
  rewrite <- app_assoc.
  rewrite (size_t_small (len pre)) by lia.
  replace (len pre + (len b + 1) - len pre) with (len b + 1) by lia.
  rewrite (size_t_small (len b + 1)) by lia.
  replace (len b + 1 - 1) with (len b) by lia.
  rewrite (size_t_small (len b)) by lia.
  rewrite bytes_from_middle. rewrite memcpy_value_end.
  rewrite (size_t_small (value_end (fst m))) by lia.
  rewrite size_t_small by lia. rewrite int_small by lia.
  reflexivity.
Qed.

(** The rest of a line that does not end in a backslash is appended, a null
    is stored after it and the record is emitted. *)
Lemma accumulate_emits (m : run) (pre body : list ascii)
    (handler : aeron_properties_file_handler_func_t) :
  let line := pre ++ body in
  body <> [] -> (last body NUL =? BACKSLASH)%char = false ->
  0 <= value_end (fst m) -> len line < 2 ^ 31 ->
  value_end (fst m) + len body < 2 ^ 31 ->
  let m2 := set_value_end (memcpy m (value_end (fst m)) body)
              (value_end (fst m) + len body) in
  accumulate capacity m line (len line) (len pre) handler
  = emit capacity
      (set_value_end (poke m2 (value_end (fst m2)) NUL)
         (value_end (fst m2) + 1)) handler.
Proof.
  intros line Hbody Hlast Hve Hlen Hsum m2.
  pose proof (len_nonneg pre) as Lp. pose proof (len_nonneg body) as Lb.
  assert (Hl : len line = len pre + len body).
  { unfold line. rewrite !len_app. reflexivity. }
  destruct (exists_last Hbody) as [b [c Hbc]].
  assert (Hc : (c =? BACKSLASH)%char = false).
  { rewrite Hbc in Hlast. rewrite last_last in Hlast. exact Hlast. }
  pose proof (len_nonneg b) as Lb'.
  assert (Hlb : len body = len b + 1) by (rewrite Hbc, len_app; reflexivity).
  unfold accumulate. rewrite Hl.
  rewrite (size_t_small (len pre + len body - 1)) by lia.
  replace (len pre + len body - 1) with (len (pre ++ b))
    by (rewrite len_app; lia).
  replace (char_at line (len (pre ++ b))) with c.
  2:{ unfold line. rewrite Hbc. rewrite app_assoc. rewrite char_at_app.
      reflexivity. }
  rewrite Hc.
  rewrite (size_t_small (len pre)) by lia.
  replace (len pre + len body - len pre) with (len body) by lia.
  rewrite (size_t_small (len body)) by lia.
  replace line with (pre ++ body ++ [])
    by (unfold line; rewrite app_nil_r; reflexivity).
  rewrite bytes_from_middle. rewrite memcpy_value_end.
  rewrite (size_t_small (value_end (fst m))) by lia.
  rewrite size_t_small by lia. rewrite int_small by lia.
  reflexivity.
Qed.

(** A line [ws1 ++ name ++ ws2 ++ sep :: rest] in the state between records:
    after the loop over the name the buffer holds the name, and the function
    goes on with the value in [rest]. *)
Lemma new_record_line (st : aeron_properties_parser_state_t)
    (ws1 name ws2 : list ascii) (sep : ascii) (rest : list ascii)
    (handler : aeron_properties_file_handler_func_t) :
  let line := ws1 ++ name ++ ws2 ++ sep :: rest in
  zero_state st -> len line < capacity ->
  all_blank ws1 = true -> is_name name = true -> all_blank ws2 = true ->
  is_separator sep = true -> no_nul rest = true ->
  exists m,
    holds (fst m) name [] /\
    (forall i, In i (snd m) -> 0 <= i <= len name + len ws2) /\
    aeron_properties_parse_line capacity st line (len line) handler
    = match drop_blanks rest with
      | [] =>
          emit capacity
            (set_value_end (poke m (value_end (fst m)) NUL)
               (value_end (fst m) + 1)) handler
      | _ :: _ =>
          accumulate capacity m line (len line)
            (len line - len (drop_blanks rest)) handler
      end.
Proof.
  intros line [Hne0 Hve0] Hlen Hws1 Hname Hws2 Hsep Hrest.
  unfold C.INT_MAX in capacity_range.
  unfold is_name in Hname. rewrite !andb_true_iff in Hname.
  destruct Hname as [[[Hfirst Hlast] Hnosep] Hnonul].
  destruct name as [| c0 name0]; [discriminate Hfirst |].
  apply andb_true_iff in Hfirst. destruct Hfirst as [Hc0b Hc0c].
  apply negb_true_iff in Hc0b, Hc0c, Hlast.
  remember (c0 :: name0) as name eqn:Hnm in *.
  assert (Hc0n : (c0 =? NUL)%char = false).
  { rewrite Hnm in Hnonul. simpl in Hnonul. apply andb_true_iff in Hnonul.
    destruct Hnonul as [H _]. apply negb_true_iff in H. exact H. }
  assert (Hnn : name <> []) by (rewrite Hnm; discriminate).
  destruct (exists_last Hnn) as [nm [cl Hnmcl]].
  assert (Hcl : is_blank cl = false).
  { rewrite Hnmcl in Hlast. rewrite last_last in Hlast. exact Hlast. }
  pose proof (len_nonneg ws1) as L1. pose proof (len_nonneg name) as L2.
  pose proof (len_nonneg ws2) as L3. pose proof (len_nonneg rest) as L4.
  assert (Hl : len line = len ws1 + (len name + (len ws2 + (1 + len rest)))).
  { unfold line. rewrite !len_app, len_cons. reflexivity. }
  assert (Hl0 : 1 <= len name) by (rewrite Hnm, len_cons; pose proof (len_nonneg name0); lia).
  destruct (name_phase st ws1 nm cl ws2 sep rest) as [m [Hloop [Hholds Hw]]];
    try assumption.
  { rewrite <- Hnmcl. exact Hnosep. }
  { rewrite <- Hnmcl. fold line. lia. }
  rewrite <- Hnmcl in Hloop, Hholds, Hw. fold line in Hloop.
  exists m. split; [exact Hholds | split; [exact Hw |]].
  unfold aeron_properties_parse_line.
  rewrite Hne0, Hve0. change (0 <? 0) with false. cbv iota.
  rewrite (size_t_small 0) by lia. rewrite Z.sub_0_r.
  rewrite size_t_small by lia. rewrite Z.geb_leb.
  replace (capacity <=? len line) with false
    by (symmetry; apply Z.leb_gt; lia).
  (* the first character of the name *)
  assert (Hcur : aeron_next_non_whitespace line 0 (C.size_t (len line - 1))
                 = len ws1).
  { unfold aeron_next_non_whitespace. simpl skipn.
    rewrite size_t_small by lia. rewrite Hl. unfold line.
    rewrite scan_from_blanks by (auto; lia).
    rewrite Hnm at 1. simpl app.
    rewrite scan_from_found by (auto; lia).
    apply int_small. lia. }
  rewrite Hcur.
  replace (len ws1 =? -1) with false by (symmetry; apply Z.eqb_neq; lia).
  replace (char_at line (len ws1)) with c0
    by (unfold line; rewrite Hnm; simpl app; rewrite char_at_app; reflexivity).
  rewrite Hc0c. simpl orb. cbv iota.
  rewrite Hloop.
  destruct Hholds as [Hne [Hve Hmem]]. change (len []) with 0 in Hve.
  replace (value_end (fst m) =? 0) with false
    by (symmetry; apply Z.eqb_neq; lia).
  replace (name_end (fst m) =? 0) with false
    by (symmetry; apply Z.eqb_neq; lia).
  simpl orb. cbv iota.
  (* the first character of the value *)
  rewrite (size_t_small (len ws1 + len name + len ws2 + 1)) by lia.
  replace (len ws1 + len name + len ws2 + 1)
    with (len (ws1 ++ name ++ ws2 ++ [sep]))
    by (rewrite !len_app; change (len [sep]) with 1; lia).
  assert (Hline : line = (ws1 ++ name ++ ws2 ++ [sep]) ++ rest).
  { unfold line. rewrite <- !app_assoc. reflexivity. }
  assert (Hscan :
    aeron_next_non_whitespace line (len (ws1 ++ name ++ ws2 ++ [sep]))
      (C.size_t (len line - 1))
    = match drop_blanks rest with
      | [] => -1
      | _ :: _ => len line - len (drop_blanks rest)
      end).
  { rewrite Hline. apply scan_rest; [exact Hrest |]. rewrite <- Hline. lia. }
  rewrite Hscan.
  destruct (drop_blanks rest) as [| d r] eqn:Hd; [reflexivity |].
  destruct (drop_blanks_split rest) as [ws3 [Hsplit _]].
  assert (Hld : len rest = len ws3 + len (d :: r))
    by (rewrite Hsplit at 1; rewrite Hd, len_app; reflexivity).
  pose proof (len_nonneg ws3). pose proof (len_nonneg (d :: r)).
  replace (len line - len (d :: r) =? -1) with false
    by (symmetry; apply Z.eqb_neq; lia).
  reflexivity.
Qed.

(** The last character of a list that ends with a non-empty list. *)
Lemma last_app_cons (a : list ascii) (d : ascii) (r : list ascii) :
  last (a ++ d :: r) NUL = last (d :: r) NUL.
Proof.
  destruct (exists_last (l := d :: r) ltac:(discriminate)) as [b [c Hbc]].
  rewrite Hbc. rewrite app_assoc. rewrite !last_last. reflexivity.
Qed.

Lemma no_nul_drop_blanks (l : list ascii) :
  no_nul l = true -> no_nul (drop_blanks l) = true.
Proof.
  intros H. destruct (drop_blanks_split l) as [ws [Heq _]].
  rewrite Heq in H. unfold no_nul in *. rewrite forallb_app in H.
  apply andb_true_iff in H. tauto.
Qed.

(** A complete record on one line. *)
Lemma record_line_emits (st : aeron_properties_parser_state_t)
    (ws1 name ws2 : list ascii) (sep : ascii) (rest : list ascii)
    (handler : aeron_properties_file_handler_func_t) :
  let line := ws1 ++ name ++ ws2 ++ sep :: rest in
  zero_state st -> len line < capacity ->
  all_blank ws1 = true -> is_name name = true -> all_blank ws2 = true ->
  is_separator sep = true -> no_nul rest = true ->
  (last rest NUL =? BACKSLASH)%char = false ->
  let o := aeron_properties_parse_line capacity st line (len line) handler in
  emitted o = Some (name, drop_blanks rest) /\
  result o = handler name (drop_blanks rest) /\
  zero_state (state o) /\ error o = None.
Proof.
  intros line Hst Hlen Hws1 Hname Hws2 Hsep Hrest Hlast o.
  unfold C.INT_MAX in capacity_range.
  destruct (new_record_line st ws1 name ws2 sep rest handler)
    as [m [Hholds [_ Heq]]]; try assumption.
  fold line in Heq. subst o. rewrite Heq. clear Heq.
  assert (Hnn : no_nul name = true).
  { unfold is_name in Hname. rewrite !andb_true_iff in Hname. tauto. }
  pose proof (len_nonneg ws1) as L1. pose proof (len_nonneg name) as L2.
  pose proof (len_nonneg ws2) as L3. pose proof (len_nonneg rest) as L4.
  assert (Hl : len line = len ws1 + (len name + (len ws2 + (1 + len rest)))).
  { unfold line. rewrite !len_app, len_cons. reflexivity. }
  pose proof (no_nul_drop_blanks rest Hrest) as Hdn.
  destruct (drop_blanks_split rest) as [ws3 [Hsplit _]].
  pose proof (len_nonneg ws3) as L5.
  destruct (drop_blanks rest) as [| d r] eqn:Hd.
  - destruct (holds_terminated m name [] Hholds) as [Hne Hmem].
    rewrite (emit_reads _ name [] handler Hne Hmem)
      by (auto; change (len (@nil ascii)) with 0; lia).
    simpl. unfold zero_state. simpl. auto.
  - assert (Hld : len rest = len ws3 + len (d :: r))
      by (rewrite Hsplit at 1; rewrite len_app; reflexivity).
    pose proof (len_nonneg (d :: r)) as L6.
    assert (Hline : line = (ws1 ++ name ++ ws2 ++ sep :: ws3) ++ d :: r).
    { unfold line. rewrite Hsplit at 1. rewrite <- !app_assoc.
      simpl. reflexivity. }
    replace (len line - len (d :: r))
      with (len (ws1 ++ name ++ ws2 ++ sep :: ws3))
      by (rewrite !len_app, len_cons; lia).
    pose proof Hholds as [Hne [Hve Hmem]]. change (len []) with 0 in Hve.
    rewrite Hline.
    rewrite accumulate_emits;
      [ | discriminate
        | rewrite <- (last_app_cons ws3), <- Hsplit; exact Hlast
        | lia | rewrite <- Hline; lia | lia ].
    pose proof (holds_append m name [] (d :: r) Hholds) as Happ.
    set (m2 := set_value_end (memcpy m (value_end (fst m)) (d :: r))
                 (value_end (fst m) + len (d :: r))) in *.
    destruct (holds_terminated m2 name ([] ++ d :: r) Happ) as [Hne' Hmem'].
    simpl app in Hne', Hmem'.
    rewrite (emit_reads _ name (d :: r) handler Hne' Hmem') by (auto; lia).
    simpl. unfold zero_state. simpl. auto.
Qed.

Lemma all_blank_no_nul (ws : list ascii) :
  all_blank ws = true -> no_nul ws = true.
Proof.
  unfold all_blank, no_nul. rewrite !forallb_forall.
  intros H c Hc. rewrite (is_blank_not_nul c (H c Hc)). reflexivity.
Qed.

Lemma no_nul_app (a b : list ascii) :
  no_nul a = true -> no_nul b = true -> no_nul (a ++ b) = true.
Proof. unfold no_nul. rewrite forallb_app. intros -> ->. reflexivity. Qed.

(** Value text followed by a character that is no blank keeps its blanks. *)
Lemma drop_blanks_value_text (body : list ascii) (c : ascii) (r : list ascii) :
  is_value_text body = true -> is_blank c = false ->
  drop_blanks (body ++ c :: r) = body ++ c :: r.
Proof.
  intros Hb Hc. unfold is_value_text in Hb. apply andb_true_iff in Hb.
  destruct Hb as [Hb _]. destruct body as [| b0 body]; simpl.
  - rewrite Hc. reflexivity.
  - apply negb_true_iff in Hb. rewrite Hb. reflexivity.
Qed.

Lemma is_value_text_no_nul (body : list ascii) :
  is_value_text body = true -> no_nul body = true.
Proof. unfold is_value_text. rewrite andb_true_iff. tauto. Qed.

(** The scan of a continuation line [ws ++ body] whose text [body] is not
    empty finds its first character. *)
Lemma scan_fragment (ws body : list ascii) :
  all_blank ws = true -> body <> [] -> drop_blanks body = body ->
  no_nul body = true -> len (ws ++ body) < 2 ^ 31 ->
  aeron_next_non_whitespace (ws ++ body) 0 (C.size_t (len (ws ++ body) - 1))
  = len ws.
Proof.
  intros Hws Hne Hd Hn Hlen.
  pose proof (scan_rest [] (ws ++ body)) as H. simpl app in H.
  change (len []) with 0 in H. rewrite H; clear H;
    [| apply no_nul_app; auto using all_blank_no_nul | exact Hlen].
  rewrite drop_blanks_app by exact Hws. rewrite Hd.
  destruct body as [| c r]; [contradiction |].
  rewrite len_app. lia.
Qed.

(** A line that ends in a backslash, in the state inside a value. *)
Lemma continuation_line_appends (st : aeron_properties_parser_state_t)
    (ws body : list ascii) (handler : aeron_properties_file_handler_func_t) :
  let line := ws ++ body ++ [BACKSLASH] in
  0 < name_end st -> 0 <= value_end st ->
  len line < capacity - value_end st ->
  all_blank ws = true -> is_fragment body = true ->
  aeron_properties_parse_line capacity st line (len line) handler
  = {| result := 0;
       state := fst (set_value_end (memcpy (st, []) (value_end st) body)
                       (value_end st + len body));
       error := None; emitted := None;
       writes := range (value_end st) (List.length body) |}.
Proof.
  intros line Hne Hve Hlen Hws Hfrag.
  unfold C.INT_MAX in capacity_range.
  unfold is_fragment in Hfrag. apply andb_true_iff in Hfrag.
  destruct Hfrag as [Hcomment Htext].
  pose proof (len_nonneg ws) as L1. pose proof (len_nonneg body) as L2.
  assert (Hl : len line = len ws + (len body + 1)).
  { unfold line. rewrite !len_app. reflexivity. }
  unfold aeron_properties_parse_line.
  replace (0 <? name_end st) with true by (symmetry; apply Z.ltb_lt; lia).
  cbv iota. rewrite bound_check by lia. rewrite Z.geb_leb.
  replace (capacity - value_end st <=? len line) with false
    by (symmetry; apply Z.leb_gt; lia).
  assert (Hscan : aeron_next_non_whitespace line 0 (C.size_t (len line - 1))
                  = len ws).
  { apply scan_fragment.
    - exact Hws.
    - destruct body; discriminate.
    - apply drop_blanks_value_text; [exact Htext | reflexivity].
    - apply no_nul_app; [apply is_value_text_no_nul; exact Htext | reflexivity].
    - fold line. lia. }
  rewrite Hscan.
  replace (len ws =? -1) with false by (symmetry; apply Z.eqb_neq; lia).
  replace (is_comment (char_at line (len ws))) with false.
  2:{ unfold line. destruct body as [| c r]; simpl app;
        rewrite char_at_app; [reflexivity |].
      apply negb_true_iff in Hcomment. symmetry. exact Hcomment. }
  simpl orb. cbv iota.
  pose proof (accumulate_continues (st, []) ws body handler) as H.
  cbv zeta in H. fold line in H. simpl fst in H.
  rewrite H by lia. rewrite memcpy_writes. reflexivity.
Qed.

(** A line that does not end in a backslash, in the state inside a value:
    the record is complete. *)
Lemma continuation_line_emits (st : aeron_properties_parser_state_t)
    (name prev ws body : list ascii)
    (handler : aeron_properties_file_handler_func_t) :
  let line := ws ++ body in
  holds st name prev -> name <> [] ->
  no_nul name = true -> no_nul prev = true ->
  len line < capacity - value_end st ->
  all_blank ws = true -> is_fragment body = true -> body <> [] ->
  (last body NUL =? BACKSLASH)%char = false ->
  let o := aeron_properties_parse_line capacity st line (len line) handler in
  emitted o = Some (name, prev ++ body) /\
  result o = handler name (prev ++ body) /\
  zero_state (state o) /\ error o = None.
Proof.
  intros line Hholds Hnm Hnn Hnp Hlen Hws Hfrag Hbody Hlast o.
  unfold C.INT_MAX in capacity_range.
  unfold is_fragment in Hfrag. apply andb_true_iff in Hfrag.
  destruct Hfrag as [Hcomment Htext].
  pose proof Hholds as [Hne [Hve Hmem]].
  pose proof (len_nonneg ws) as L1. pose proof (len_nonneg body) as L2.
  pose proof (len_nonneg name) as L3. pose proof (len_nonneg prev) as L4.
  assert (L5 : 1 <= len name).
  { destruct name; [contradiction |]. rewrite len_cons.
    pose proof (len_nonneg name). lia. }
  assert (Hl : len line = len ws + len body).
  { unfold line. rewrite !len_app. reflexivity. }
  assert (Hhead : exists c r, body = c :: r)
    by (destruct body as [| c r]; [contradiction | eauto]).
  destruct Hhead as [c [r Hb]].
  assert (Hcb : is_blank c = false).
  { pose proof Htext as H. unfold is_value_text in H. rewrite Hb in H.
    apply andb_true_iff in H. destruct H as [H _].
    apply negb_true_iff in H. exact H. }
  assert (Hcc : is_comment c = false).
  { rewrite Hb in Hcomment. apply negb_true_iff in Hcomment. exact Hcomment. }
  subst o. unfold aeron_properties_parse_line.
  replace (0 <? name_end st) with true by (symmetry; apply Z.ltb_lt; lia).
  cbv iota. rewrite bound_check by lia. rewrite Z.geb_leb.
  replace (capacity - value_end st <=? len line) with false
    by (symmetry; apply Z.leb_gt; lia).
  assert (Hscan : aeron_next_non_whitespace line 0 (C.size_t (len line - 1))
                  = len ws).
  { apply scan_fragment.
    - exact Hws.
    - exact Hbody.
    - rewrite Hb. simpl. rewrite Hcb. reflexivity.
    - apply is_value_text_no_nul. exact Htext.
    - fold line. lia. }
  rewrite Hscan.
  replace (len ws =? -1) with false by (symmetry; apply Z.eqb_neq; lia).
  replace (is_comment (char_at line (len ws))) with false.
  2:{ unfold line. rewrite Hb. rewrite char_at_app. symmetry. exact Hcc. }
  simpl orb. cbv iota.
  pose proof (accumulate_emits (st, []) ws body handler) as H.
  cbv zeta in H. fold line in H. simpl fst in H.
  rewrite H by (auto; lia). clear H.
  pose proof (holds_append (st, []) name prev body Hholds) as Happ.
  simpl fst in Happ.
  set (m2 := set_value_end (memcpy (st, []) (value_end st) body)
               (value_end st + len body)) in *.
  destruct (holds_terminated m2 name (prev ++ body) Happ) as [Hne' Hmem'].
  rewrite (emit_reads _ name (prev ++ body) handler).
  - simpl. unfold zero_state. simpl. auto.
  - exact Hne'.
  - exact Hmem'.
  - exact Hnn.
  - apply no_nul_app; [exact Hnp | apply is_value_text_no_nul; exact Htext].
  - lia.
  - rewrite len_app. lia.
Qed.

Lemma match_nonempty (A B : Type) (l : list A) (a b : B) :
  l <> [] -> match l with [] => a | _ :: _ => b end = b.
Proof. destruct l; [contradiction | reflexivity]. Qed.

(** The first line of a record whose value goes on: the buffer holds the
    name and the text after the separator, without the backslash. *)
Lemma record_line_continues (st : aeron_properties_parser_state_t)
    (ws1 name ws2 : list ascii) (sep : ascii) (ws3 body : list ascii)
    (handler : aeron_properties_file_handler_func_t) :
  let line := ws1 ++ name ++ ws2 ++ sep :: ws3 ++ body ++ [BACKSLASH] in
  zero_state st -> len line < capacity ->
  all_blank ws1 = true -> is_name name = true -> all_blank ws2 = true ->
  is_separator sep = true -> all_blank ws3 = true ->
  is_value_text body = true ->
  let o := aeron_properties_parse_line capacity st line (len line) handler in
  result o = 0 /\ emitted o = None /\ error o = None /\
  holds (state o) name body /\
  (forall i, In i (writes o) -> 0 <= i < capacity).
Proof.
  intros line Hst Hlen Hws1 Hname Hws2 Hsep Hws3 Htext o.
  unfold C.INT_MAX in capacity_range.
  assert (Hrest : no_nul (ws3 ++ body ++ [BACKSLASH]) = true).
  { apply no_nul_app; [apply all_blank_no_nul; exact Hws3 |].
    apply no_nul_app; [apply is_value_text_no_nul; exact Htext | reflexivity]. }
  destruct (new_record_line st ws1 name ws2 sep (ws3 ++ body ++ [BACKSLASH])
              handler) as [m [Hholds [Hw Heq]]]; try assumption.
  fold line in Heq. subst o. rewrite Heq. clear Heq.
  rewrite drop_blanks_app by exact Hws3.
  rewrite drop_blanks_value_text by (auto; reflexivity).
  pose proof (len_nonneg ws1) as L1. pose proof (len_nonneg name) as L2.
  pose proof (len_nonneg ws2) as L3. pose proof (len_nonneg ws3) as L4.
  pose proof (len_nonneg body) as L5.
  assert (Hl : len line
               = len ws1 + (len name + (len ws2 + (1 + (len ws3 + (len body + 1)))))).
  { unfold line. rewrite !len_app, len_cons, !len_app. reflexivity. }
  rewrite match_nonempty by (destruct body; discriminate).
  assert (Hline : line = (ws1 ++ name ++ ws2 ++ sep :: ws3)
                         ++ body ++ [BACKSLASH]).
  { unfold line. rewrite <- !app_assoc. simpl. reflexivity. }
  replace (len line - len (body ++ [BACKSLASH]))
    with (len (ws1 ++ name ++ ws2 ++ sep :: ws3))
    by (rewrite Hl; len_norm; lia).
  pose proof Hholds as [Hne [Hve Hmem]]. change (len []) with 0 in Hve.
  rewrite Hline.
  rewrite accumulate_continues by (try rewrite <- Hline; lia).
  simpl result. simpl emitted. simpl error. simpl state. simpl writes.
  split; [reflexivity | split; [reflexivity | split; [reflexivity | split]]].
  - apply (holds_append m name [] body Hholds).
  - intros i Hi. rewrite memcpy_writes in Hi. apply in_app_or in Hi.
    destruct Hi as [Hi | Hi].
    + apply Hw in Hi. lia.
    + apply range_bounds in Hi. unfold len in *. lia.
Qed.

(** *** Lines that are rejected *)

Lemma is_separator_facts (c : ascii) :
  is_separator c = true ->
  is_blank c = false /\ is_comment c = false /\ (c =? NUL)%char = false.
Proof.
  unfold is_separator. intros H. apply orb_true_iff in H.
  destruct H as [H | H]; apply Ascii.eqb_eq in H; subst c; repeat split.
Qed.

(** A line that starts with the separator has an empty name. *)
Lemma separator_first_is_rejected (st : aeron_properties_parser_state_t)
    (sep : ascii) (rest : list ascii)
    (handler : aeron_properties_file_handler_func_t) :
  zero_state st -> is_separator sep = true ->
  len (sep :: rest) < capacity ->
  let o := aeron_properties_parse_line capacity st (sep :: rest)
             (len (sep :: rest)) handler in
  result o = -1 /\ error o = Some Malformed_line /\ emitted o = None /\
  zero_state (state o) /\ writes o = [0].
Proof.
  intros [Hne Hve] Hsep Hlen o. unfold C.INT_MAX in capacity_range.
  destruct (is_separator_facts sep Hsep) as [Hb [Hc Hn]].
  pose proof (len_nonneg rest) as Lr. rewrite len_cons in Hlen.
  subst o. unfold aeron_properties_parse_line.
  rewrite Hne, Hve. change (0 <? 0) with false. cbv iota.
  rewrite (size_t_small 0) by lia. rewrite Z.sub_0_r.
  rewrite size_t_small by lia. rewrite Z.geb_leb. rewrite len_cons.
  replace (capacity <=? 1 + len rest) with false
    by (symmetry; apply Z.leb_gt; lia).
  assert (Hcur : aeron_next_non_whitespace (sep :: rest) 0
                   (C.size_t (1 + len rest - 1)) = 0).
  { unfold aeron_next_non_whitespace. simpl skipn.
    rewrite size_t_small by lia.
    rewrite scan_from_found by (auto; lia). reflexivity. }
  rewrite Hcur. change (0 =? -1) with false.
  change (char_at (sep :: rest) 0) with sep. rewrite Hc. simpl orb. cbv iota.
  rewrite Z.sub_0_r.
  replace (Z.to_nat (1 + len rest)) with (S (List.length rest))
    by (unfold len; lia).
  simpl name_loop. change (char_at (sep :: rest) 0) with sep. rewrite Hsep.
  change (Z.to_nat (C.int (C.size_t (0 - 1)) + 1)) with 0%nat.
  simpl trim_loop. simpl fst. simpl name_end. simpl value_end.
  rewrite Hne. change (0 + 1 =? 0) with false. change (0 =? 0) with true.
  simpl orb. cbv iota. unfold zero_state. simpl. repeat split.
Qed.

(** A line without separator is rejected once the name is copied. *)
Lemma line_without_separator_is_rejected (st : aeron_properties_parser_state_t)
    (ws1 : list ascii) (c : ascii) (r : list ascii)
    (handler : aeron_properties_file_handler_func_t) :
  let line := ws1 ++ c :: r in
  zero_state st -> all_blank ws1 = true ->
  is_blank c = false -> is_comment c = false -> (c =? NUL)%char = false ->
  no_separator (c :: r) = true -> len line < capacity ->
  let o := aeron_properties_parse_line capacity st line (len line) handler in
  result o = -1 /\ error o = Some Malformed_line /\ emitted o = None /\
  zero_state (state o) /\ writes o = range 0 (List.length (c :: r)).
Proof.
  intros line [Hne Hve] Hws1 Hb Hc Hn Hsep Hlen o.
  unfold C.INT_MAX in capacity_range.
  pose proof (len_nonneg ws1) as L1. pose proof (len_nonneg r) as Lr.
  assert (Hl : len line = len ws1 + (1 + len r)).
  { unfold line. rewrite len_app, len_cons. reflexivity. }
  subst o. unfold aeron_properties_parse_line.
  rewrite Hne, Hve. change (0 <? 0) with false. cbv iota.
  rewrite (size_t_small 0) by lia. rewrite Z.sub_0_r.
  rewrite size_t_small by lia. rewrite Z.geb_leb.
  replace (capacity <=? len line) with false
    by (symmetry; apply Z.leb_gt; lia).
  assert (Hcur : aeron_next_non_whitespace line 0 (C.size_t (len line - 1))
                 = len ws1).
  { unfold aeron_next_non_whitespace. simpl skipn.
    rewrite size_t_small by lia. rewrite Hl. unfold line.
    rewrite scan_from_blanks by (auto; lia).
    rewrite scan_from_found by (auto; lia).
    apply int_small. lia. }
  rewrite Hcur.
  replace (len ws1 =? -1) with false by (symmetry; apply Z.eqb_neq; lia).
  replace (char_at line (len ws1)) with c
    by (unfold line; rewrite char_at_app; reflexivity).
  rewrite Hc. simpl orb. cbv iota.
  replace (Z.to_nat (len line - len ws1))
    with (List.length (c :: r) + 0)%nat
    by (rewrite Hl; simpl List.length; unfold len; lia).
  replace line with (ws1 ++ (c :: r) ++ [])
    by (unfold line; rewrite app_nil_r; reflexivity).
  rewrite name_loop_copies by exact Hsep.
  set (M := set_name_end (memcpy (st, []) (name_end (fst (st, []))) (c :: r))
              (name_end (fst (st, [])) + len (c :: r))).
  cbn [name_loop].
  assert (HveM : value_end (fst M) = 0).
  { unfold M, set_name_end. cbn [fst value_end].
    rewrite memcpy_value_end. exact Hve. }
  assert (HwM : snd M = range 0 (List.length (c :: r))).
  { unfold M, set_name_end. cbn [fst snd].
    rewrite memcpy_writes, Hne. reflexivity. }
  rewrite HveM. change (0 =? 0) with true. cbn [orb].
  cbn [result error emitted state writes]. rewrite HwM.
  unfold zero_state. cbn [aeron_properties_parse_init name_end value_end].
  repeat split.
Qed.

(** *** What every call keeps *)

(** A line in the state inside a value that is no comment goes to the
    copy of the value. *)
Lemma continuation_line_accumulates (st : aeron_properties_parser_state_t)
    (ws : list ascii) (c : ascii) (r : list ascii)
    (handler : aeron_properties_file_handler_func_t) :
  let line := ws ++ c :: r in
  0 < name_end st -> 0 <= value_end st <= capacity ->
  len line < capacity - value_end st ->
  all_blank ws = true -> is_blank c = false -> is_comment c = false ->
  no_nul (c :: r) = true ->
  aeron_properties_parse_line capacity st line (len line) handler
  = accumulate capacity (st, []) line (len line) (len ws) handler.
Proof.
  intros line Hne Hve Hlen Hws Hb Hc Hn.
  unfold C.INT_MAX in capacity_range.
  pose proof (len_nonneg ws) as L1.
  unfold aeron_properties_parse_line.
  replace (0 <? name_end st) with true by (symmetry; apply Z.ltb_lt; lia).
  cbv iota. rewrite bound_check by lia. rewrite Z.geb_leb.
  replace (capacity - value_end st <=? len line) with false
    by (symmetry; apply Z.leb_gt; lia).
  assert (Hscan : aeron_next_non_whitespace line 0 (C.size_t (len line - 1))
                  = len ws).
  { apply scan_fragment.
    - exact Hws.
    - discriminate.
    - simpl. rewrite Hb. reflexivity.
    - exact Hn.
    - fold line. lia. }
  rewrite Hscan.
  replace (len ws =? -1) with false by (symmetry; apply Z.eqb_neq; lia).
  replace (char_at line (len ws)) with c
    by (unfold line; rewrite char_at_app; reflexivity).
  rewrite Hc. reflexivity.
Qed.

(** The copy of the value either completes the record, and the state is
    reset, or moves [value_end] forward over what it stored; the stores are
    at [value_end] and after it, up to the length of the text. *)
Lemma accumulate_state (m : run) (pre body : list ascii)
    (handler : aeron_properties_file_handler_func_t) :
  let line := pre ++ body in
  body <> [] -> 0 <= value_end (fst m) -> len line < 2 ^ 31 ->
  value_end (fst m) + len body < 2 ^ 31 ->
  let o := accumulate capacity m line (len line) (len pre) handler in
  (zero_state (state o) \/
   (name_end (state o) = name_end (fst m) /\
    value_end (fst m) <= value_end (state o) <= value_end (fst m) + len body /\
    forall k, k < value_end (fst m) ->
      property_str (state o) k = property_str (fst m) k)) /\
  (forall i, In i (writes o) ->
     In i (snd m) \/
     value_end (fst m) <= i <= value_end (fst m) + len body).
Proof.
  intros line Hbody Hve Hlen Hsum o.
  destruct (exists_last Hbody) as [b [c Hbc]].
  pose proof (len_nonneg b) as Lb.
  assert (Hlb : len body = len b + 1) by (rewrite Hbc, len_app; reflexivity).
  destruct (c =? BACKSLASH)%char eqn:Hc.
  - apply Ascii.eqb_eq in Hc. subst c.
    assert (Hline : line = pre ++ b ++ [BACKSLASH])
      by (unfold line; rewrite Hbc; reflexivity).
    subst o. rewrite Hline.
    rewrite accumulate_continues by (try rewrite <- Hline; lia).
    cbn [state writes]. split.
    + right. unfold set_value_end. cbn [fst name_end value_end property_str].
      rewrite memcpy_name_end. split; [reflexivity | split; [lia |]].
      intros k Hk. rewrite memcpy_mem. unfold blit.
      replace (value_end (fst m) <=? k) with false
        by (symmetry; apply Z.leb_gt; lia).
      reflexivity.
    + intros i Hi. rewrite memcpy_writes in Hi. apply in_app_or in Hi.
      destruct Hi as [Hi | Hi]; [left; exact Hi | right].
      apply range_bounds in Hi. unfold len in *. lia.
  - subst o. unfold line.
    rewrite accumulate_emits;
      [ | exact Hbody | rewrite Hbc, last_last; exact Hc | lia
        | exact Hlen | lia ].
    unfold emit. cbn [state writes]. split.
    + left. unfold zero_state. split; reflexivity.
    + intros i Hi. unfold set_value_end, poke in Hi. cbn [fst snd] in Hi.
      apply in_app_or in Hi. destruct Hi as [Hi | [Hi | []]].
      * rewrite memcpy_writes in Hi. apply in_app_or in Hi.
        destruct Hi as [Hi | Hi]; [left; exact Hi | right].
        apply range_bounds in Hi. unfold len in *. lia.
      * right. cbn [value_end] in Hi. lia.
Qed.

(** A list splits at its first separator. *)
Lemma split_at_separator (l : list ascii) :
  exists a tail, l = a ++ tail /\ no_separator a = true /\
    match tail with [] => True | c :: _ => is_separator c = true end.
Proof.
  induction l as [| c l IH].
  - exists [], []. repeat split.
  - destruct (is_separator c) eqn:Hc.
    + exists [], (c :: l). repeat split. exact Hc.
    + destruct IH as [a [tail [Heq [Ha Ht]]]].
      exists (c :: a), tail. split; [simpl; f_equal; exact Heq |].
      split; [| exact Ht]. simpl. rewrite Hc. exact Ha.
Qed.

(** A list splits into a part that does not end in a blank and blanks. *)
Lemma split_trailing_blanks (a : list ascii) :
  exists name ws2, a = name ++ ws2 /\ all_blank ws2 = true /\
    (name = [] \/ is_blank (last name NUL) = false).
Proof.
  induction a as [| c a IH] using rev_ind.
  - exists [], []. repeat split. left. reflexivity.
  - destruct (is_blank c) eqn:Hc.
    + destruct IH as [name [ws2 [Heq [Hws Hn]]]].
      exists name, (ws2 ++ [c]). split; [| split; [| exact Hn]].
      * rewrite Heq, app_assoc. reflexivity.
      * unfold all_blank in *. rewrite forallb_app, Hws. simpl.
        rewrite Hc. reflexivity.
    + exists (a ++ [c]), []. split; [rewrite app_nil_r; reflexivity |].
      split; [reflexivity |]. right. rewrite last_last. exact Hc.
Qed.

Lemma drop_blanks_is_value_text (V : list ascii) :
  is_value_text V = true -> drop_blanks V = V.
Proof.
  unfold is_value_text. intros H. apply andb_true_iff in H.
  destruct H as [H _]. destruct V as [| c r]; [reflexivity |].
  apply negb_true_iff in H. simpl. rewrite H. reflexivity.
Qed.

(** C2. In the state between records, a line within the bound that is made
    of blanks, a name, blanks, a separator [':'] or ['='] and a rest that
    does not end in a backslash emits one record: the name without the
    blanks around it, and the rest without its leading blanks, its trailing
    blanks kept. The return value is the handler's and the state is reset.
    In particular [N=V] and [N:V] emit [(N, V)], ["  N  =  V  "] emits
    [("N", "V  ")] and ["N="] emits [("N", "")]. *)
Theorem record_on_one_line_is_emitted (st : aeron_properties_parser_state_t)
    (handler : aeron_properties_file_handler_func_t) :
  zero_state st ->
  (forall (ws1 name ws2 : list ascii) (sep : ascii) (rest : list ascii),
     let line := ws1 ++ name ++ ws2 ++ sep :: rest in
     len line < capacity ->
     all_blank ws1 = true -> is_name name = true -> all_blank ws2 = true ->
     is_separator sep = true -> no_nul rest = true ->
     (last rest NUL =? BACKSLASH)%char = false ->
     let o := aeron_properties_parse_line capacity st line (len line) handler in
     emitted o = Some (name, drop_blanks rest) /\
     result o = handler name (drop_blanks rest) /\
     zero_state (state o) /\ error o = None) /\
  (forall (N V : list ascii) (sep : ascii),
     is_name N = true -> is_value_text V = true -> is_separator sep = true ->
     (last V NUL =? BACKSLASH)%char = false ->
     len (N ++ sep :: V) < capacity ->
     emitted (aeron_properties_parse_line capacity st (N ++ sep :: V)
                (len (N ++ sep :: V)) handler) = Some (N, V)) /\
  (11 < capacity ->
   emitted (aeron_properties_parse_line capacity st (chars "  N  =  V  ") 11
              handler) = Some (chars "N", chars "V  ")) /\
  (2 < capacity ->
   emitted (aeron_properties_parse_line capacity st (chars "N=") 2 handler)
   = Some (chars "N", [])).
Proof.
  intros Hst. split; [| split; [| split]].
  - intros ws1 name ws2 sep rest line Hlen Hws1 Hname Hws2 Hsep Hrest Hlast.
    apply record_line_emits; assumption.
  - intros N V sep HN HV Hsep Hlast Hlen.
    pose proof (record_line_emits st [] N [] sep V handler Hst Hlen
                  eq_refl HN eq_refl Hsep (is_value_text_no_nul V HV) Hlast)
      as [H _].
    rewrite drop_blanks_is_value_text in H by exact HV. exact H.
  - intros Hcap.
    pose proof (record_line_emits st (chars "  ") (chars "N") (chars "  ")
                  "="%char (chars "  V  ") handler Hst) as H.
    cbv zeta in H. change (len _) with 11 in H.
    destruct (H Hcap eq_refl eq_refl eq_refl eq_refl eq_refl eq_refl)
      as [He _].
    exact He.
  - intros Hcap.
    pose proof (record_line_emits st [] (chars "N") [] "="%char [] handler Hst)
      as H.
    cbv zeta in H. change (len _) with 2 in H.
    destruct (H Hcap eq_refl eq_refl eq_refl eq_refl eq_refl eq_refl)
      as [He _].
    exact He.
Qed.

(** C3. A line within the bound that ends in a backslash and is no comment:
    in the state inside a value, the bytes from the first one that is no
    blank up to the backslash, which is left out, are stored from
    [value_end] on, [value_end] advances by their number, which is not
    negative, the function returns 0 and emits nothing; when the backslash
    is the first byte after the blanks nothing is stored and the state stays
    as it is. In the state between records the same happens to the text
    after the separator, so that the buffer holds the name and that text;
    and ["N=AB\"] followed by ["  CD"] emits [("N", "ABCD")]. *)
Theorem continuation_is_appended
    (handler : aeron_properties_file_handler_func_t) :
  (forall (st : aeron_properties_parser_state_t) (ws body : list ascii),
     let line := ws ++ body ++ [BACKSLASH] in
     in_value_state capacity st -> len line < capacity - value_end st ->
     all_blank ws = true -> is_fragment body = true ->
     let o := aeron_properties_parse_line capacity st line (len line) handler in
     result o = 0 /\ emitted o = None /\
     name_end (state o) = name_end st /\
     value_end (state o) = value_end st + len body /\ 0 <= len body /\
     (forall k, property_str (state o) k
                = blit (property_str st) (value_end st) body k) /\
     writes o = range (value_end st) (List.length body)) /\
  (forall (st : aeron_properties_parser_state_t) (ws : list ascii),
     let line := ws ++ [BACKSLASH] in
     in_value_state capacity st -> len line < capacity - value_end st ->
     all_blank ws = true ->
     let o := aeron_properties_parse_line capacity st line (len line) handler in
     result o = 0 /\ emitted o = None /\ state o = st /\ writes o = []) /\
  (forall (st : aeron_properties_parser_state_t) (ws1 name ws2 : list ascii)
          (sep : ascii) (ws3 body : list ascii),
     let line := ws1 ++ name ++ ws2 ++ sep :: ws3 ++ body ++ [BACKSLASH] in
     zero_state st -> len line < capacity ->
     all_blank ws1 = true -> is_name name = true -> all_blank ws2 = true ->
     is_separator sep = true -> all_blank ws3 = true ->
     is_value_text body = true ->
     let o := aeron_properties_parse_line capacity st line (len line) handler in
     result o = 0 /\ emitted o = None /\ holds (state o) name body) /\
  (forall st : aeron_properties_parser_state_t,
     zero_state st -> 8 < capacity ->
     let o1 := aeron_properties_parse_line capacity st (chars "N=AB\") 5
                 handler in
     let o2 := aeron_properties_parse_line capacity (state o1) (chars "  CD") 4
                 handler in
     result o1 = 0 /\ emitted o1 = None /\
     emitted o2 = Some (chars "N", chars "ABCD")).
Proof.
  split; [| split; [| split]].
  - intros st ws body line [Hne [Hlt [Hle Hnul]]] Hlen Hws Hfrag o.
    subst o. unfold line.
    rewrite continuation_line_appends by (auto; fold line; lia).
    simpl result. simpl emitted. simpl state. simpl writes.
    simpl name_end. simpl value_end. simpl property_str.
    rewrite memcpy_name_end.
    repeat (split; [reflexivity |]).
    split; [apply len_nonneg |]. split; [| reflexivity].
    intros k. apply memcpy_mem.
  - intros st ws line [Hne [Hlt [Hle Hnul]]] Hlen Hws o.
    subst o. unfold line.
    pose proof (continuation_line_appends st ws [] handler) as H.
    simpl app in H. rewrite H by (auto; fold line; lia).
    simpl. rewrite len_nil, Z.add_0_r. destruct st. auto.
  - intros st ws1 name ws2 sep ws3 body line Hst Hlen Hws1 Hname Hws2 Hsep
      Hws3 Htext o.
    destruct (record_line_continues st ws1 name ws2 sep ws3 body handler)
      as [H1 [H2 [_ [H3 _]]]]; auto.
  - intros st Hst Hcap o1.
    destruct (record_line_continues st [] (chars "N") [] "="%char []
                (chars "AB") handler) as [H1 [H2 [_ [H3 _]]]];
      try reflexivity; try assumption.
    { change (len _) with 5. lia. }
    change (aeron_properties_parse_line capacity st _ _ handler)
      with o1 in H1, H2, H3.
    intros o2. split; [exact H1 | split; [exact H2 |]].
    destruct (continuation_line_emits (state o1) (chars "N") (chars "AB")
                (chars "  ") (chars "CD") handler) as [He _];
      try reflexivity; try assumption; try discriminate.
    { destruct H3 as [_ [Hve _]]. rewrite Hve.
      change (len (chars "  " ++ chars "CD")) with 4.
      change (len (chars "N") + 1 + len (chars "AB")) with 4. lia. }
Qed.

(** C4. In the state between records and in the state inside a value, a
    line within the bound that is blank, or whose first character after the
    blanks is ['!'] or ['#'], makes [aeron_properties_parse_line] return 0
    with the state as it was: nothing is stored, nothing is emitted. *)
Theorem comment_or_blank_is_skipped (st : aeron_properties_parser_state_t)
    (line : list ascii) (handler : aeron_properties_file_handler_func_t) :
  zero_state st \/ in_value_state capacity st ->
  len line < capacity - value_end st ->
  comment_or_blank line = true ->
  aeron_properties_parse_line capacity st line (len line) handler
  = {| result := 0; state := st; error := None; emitted := None;
       writes := [] |}.
Proof.
  intros Hst Hlen Hc.
  apply skips_comment_or_blank; [| exact Hlen | exact Hc].
  destruct Hst as [[_ H] | [H1 [H2 [H3 _]]]]; lia.
Qed.

(** C5. Whenever [length >= capacity - value_end], for a [value_end] that
    is an [int] not above the capacity and a [length] that is a [size_t],
    [aeron_properties_parse_line] returns -1 with the error of a line too
    long for the parser state; the state it returns is the state it got, and
    it stores nothing and emits nothing. *)
Theorem line_too_long_fails (st : aeron_properties_parser_state_t)
    (line : list ascii) (length : Z)
    (handler : aeron_properties_file_handler_func_t) :
  - 2 ^ 31 <= value_end st <= capacity ->
  0 <= length < 2 ^ 64 ->
  length >= capacity - value_end st ->
  let o := aeron_properties_parse_line capacity st line length handler in
  result o = -1 /\ state o = st /\
  error o = Some (Line_too_long (C.size_t (length + C.size_t (value_end st)))) /\
  emitted o = None /\ writes o = [].
Proof.
  intros Hve Hlen Hge. apply line_too_long_bound; assumption.
Qed.

(** C7. When [aeron_properties_parse_line] emits a record, what it returns
    is what the handler returned on that record, and both offsets of the
    state are zero afterwards, whatever the handler returned. *)
Theorem emission_returns_handler_result (st : aeron_properties_parser_state_t)
    (line : list ascii) (length : Z)
    (handler : aeron_properties_file_handler_func_t)
    (name value : list ascii) :
  let o := aeron_properties_parse_line capacity st line length handler in
  emitted o = Some (name, value) ->
  result o = handler name value /\ zero_state (state o).
Proof.
  cbv zeta. unfold aeron_properties_parse_line, accumulate, emit, zero_state.
  repeat match goal with
         | |- context [if ?b then _ else _] => destruct b
         | |- context [let '(_, _) := ?p in _] => destruct p
         end;
    simpl; intros H; try discriminate H;
    injection H as Hn Hv; subst name value; auto.
Qed.

(** Apart from the lines with blanks in front of an empty name, every
    call on a C string within the bound, from the state between records or
    from a state inside a value, ends in one of these two states, and every
    store it makes is inside the buffer. *)
Theorem parse_line_keeps_invariant (st : aeron_properties_parser_state_t)
    (line : list ascii) (handler : aeron_properties_file_handler_func_t) :
  zero_state st \/ in_value_state capacity st ->
  no_nul line = true -> len line < capacity - value_end st ->
  (zero_state st -> blank_then_separator line = false) ->
  let o := aeron_properties_parse_line capacity st line (len line) handler in
  (zero_state (state o) \/ in_value_state capacity (state o)) /\
  (forall i, In i (writes o) -> 0 <= i < capacity).
Proof.
  intros Hst Hnul Hlen Hdefect o. unfold C.INT_MAX in capacity_range.
  assert (Hve : 0 <= value_end st <= capacity).
  { destruct Hst as [[_ H] | [H1 [H2 [H3 _]]]]; lia. }
  destruct (comment_or_blank line) eqn:Hcb.
  { subst o. rewrite skips_comment_or_blank by assumption.
    cbn [state writes]. split; [exact Hst | intros i []]. }
  destruct (drop_blanks_split line) as [ws1 [Hsplit Hws1]].
  unfold comment_or_blank in Hcb.
  destruct (drop_blanks line) as [| c r] eqn:Hd; [discriminate Hcb |].
  pose proof (drop_blanks_head _ _ _ Hd) as Hcblank.
  pose proof (no_nul_drop_blanks line Hnul) as Hnr. rewrite Hd in Hnr.
  assert (Hcn : (c =? NUL)%char = false).
  { simpl in Hnr. apply andb_true_iff in Hnr. destruct Hnr as [H _].
    apply negb_true_iff in H. exact H. }
  pose proof (len_nonneg ws1) as L1. pose proof (len_nonneg r) as Lr.
  assert (Hl : len line = len ws1 + (1 + len r))
    by (rewrite Hsplit at 1; rewrite len_app, len_cons; reflexivity).
  destruct Hst as [Hzero | Hin].
  - (* between records *)
    pose proof Hzero as [Hne0 Hve0]. rewrite Hve0, Z.sub_0_r in Hlen.
    destruct (is_separator c) eqn:Hsepc.
    + (* the separator comes first: there is no blank in front of it *)
      specialize (Hdefect Hzero). unfold blank_then_separator in Hdefect.
      rewrite Hd, Hsepc, andb_true_r in Hdefect.
      assert (Hws : ws1 = []).
      { destruct ws1 as [| b ws1]; [reflexivity |].
        rewrite Hsplit in Hdefect. simpl in Hdefect.
        simpl in Hws1. rewrite Hdefect in Hws1. discriminate Hws1. }
      subst ws1. simpl app in Hsplit. subst o. rewrite Hsplit.
      destruct (separator_first_is_rejected st c r handler Hzero Hsepc)
        as [_ [_ [_ [Hz Hw]]]]; [rewrite <- Hsplit; exact Hlen |].
      split; [left; exact Hz |].
      intros i Hi. rewrite Hw in Hi. destruct Hi as [<- | []]. lia.
    + destruct (split_at_separator (c :: r)) as [a [tl [Ha [Hnosep Htl]]]].
      destruct a as [| c' a'].
      { simpl in Ha. subst tl. rewrite Hsepc in Htl. discriminate Htl. }
      assert (c' = c) by (simpl in Ha; congruence). subst c'.
      destruct tl as [| sep rest].
      * (* no separator at all *)
        rewrite app_nil_r in Ha. rewrite <- Ha in Hnosep.
        subst o. rewrite Hsplit.
        destruct (line_without_separator_is_rejected st ws1 c r handler)
          as [_ [_ [_ [Hz Hw]]]]; try assumption.
        { rewrite <- Hsplit. exact Hlen. }
        split; [left; exact Hz |].
        intros i Hi. rewrite Hw in Hi. apply range_bounds in Hi.
        simpl List.length in Hi. unfold len in *. lia.
      * (* a name and a separator *)
        destruct (split_trailing_blanks (c :: a'))
          as [name [ws2 [Hnm [Hws2 Hlastn]]]].
        destruct name as [| n0 name'].
        { simpl in Hnm. rewrite <- Hnm in Hws2. simpl in Hws2.
          rewrite Hcblank in Hws2. discriminate Hws2. }
        destruct Hlastn as [Hlastn | Hlastn]; [discriminate Hlastn |].
        assert (n0 = c) by (simpl in Hnm; congruence). subst n0.
        assert (Hline : line = ws1 ++ (c :: name') ++ ws2 ++ sep :: rest).
        { rewrite Hsplit, Ha, Hnm, <- app_assoc. reflexivity. }
        assert (Hname : is_name (c :: name') = true).
        { assert (Hns : no_separator (c :: name') = true).
          { rewrite Hnm in Hnosep. unfold no_separator in *.
            rewrite forallb_app in Hnosep.
            apply andb_true_iff in Hnosep. tauto. }
          assert (Hnn : no_nul (c :: name') = true).
          { rewrite Hline in Hnul. unfold no_nul in *.
            rewrite !forallb_app in Hnul. apply andb_true_iff in Hnul.
            destruct Hnul as [_ Hnul]. apply andb_true_iff in Hnul. tauto. }
          unfold is_name. rewrite !andb_true_iff. repeat split.
          - rewrite Hcblank. reflexivity.
          - rewrite Hcb. reflexivity.
          - rewrite Hlastn. reflexivity.
          - exact Hns.
          - exact Hnn. }
        assert (Hrest : no_nul rest = true).
        { rewrite Hline in Hnul. unfold no_nul in *.
          rewrite !forallb_app in Hnul. simpl in Hnul.
          rewrite !andb_true_iff in Hnul. tauto. }
        pose proof (len_nonneg name') as Ln. pose proof (len_nonneg ws2) as L2.
        pose proof (len_nonneg rest) as L3.
        assert (Hl' : len line
                      = len ws1 + (1 + len name' + (len ws2 + (1 + len rest))))
          by (rewrite Hline; len_norm; reflexivity).
        destruct (new_record_line st ws1 (c :: name') ws2 sep rest handler)
          as [m [Hholds [Hw Heq]]]; try assumption.
        { rewrite <- Hline. exact Hlen. }
        rewrite <- Hline in Heq. subst o. rewrite Heq. clear Heq.
        pose proof Hholds as [Hnem [Hvem Hmem]].
        rewrite len_nil, len_cons in Hvem. rewrite len_cons in Hnem, Hw.
        destruct (drop_blanks_split rest) as [ws3 [Hsplit3 _]].
        destruct (drop_blanks rest) as [| d r'] eqn:Hd3.
        -- unfold emit. cbn [state writes]. split.
           ++ left. split; reflexivity.
           ++ intros i Hi. unfold set_value_end, poke in Hi.
              cbn [fst snd] in Hi. apply in_app_or in Hi.
              destruct Hi as [Hi | [Hi | []]]; [apply Hw in Hi; lia | lia].
        -- pose proof (len_nonneg ws3) as L4. pose proof (len_nonneg r') as L5.
           assert (Hl3 : len rest = len ws3 + (1 + len r'))
             by (rewrite Hsplit3 at 1; len_norm; reflexivity).
           assert (Hline3 : line = (ws1 ++ (c :: name') ++ ws2 ++ sep :: ws3)
                                   ++ d :: r').
           { rewrite Hline, Hsplit3. repeat rewrite <- app_assoc.
             simpl. repeat rewrite <- app_assoc. reflexivity. }
           replace (len line - len (d :: r'))
             with (len (ws1 ++ (c :: name') ++ ws2 ++ sep :: ws3))
             by (rewrite Hl'; len_norm; lia).
           pose proof (accumulate_state m
                         (ws1 ++ (c :: name') ++ ws2 ++ sep :: ws3) (d :: r')
                         handler) as Hacc.
           cbv zeta in Hacc. rewrite <- Hline3 in Hacc.
           destruct Hacc as [Hstate Hwr];
             [discriminate | lia | lia | rewrite len_cons; lia |].
           split.
           ++ destruct Hstate as [Hz | [Hn' [Hv' Hm']]]; [left; exact Hz |].
              right. unfold in_value_state. rewrite Hn', Hnem.
              rewrite len_cons in Hv'.
              split; [lia | split; [lia | split; [lia |]]].
              rewrite Hm' by lia.
              replace (1 + len name') with (Z.of_nat (List.length (c :: name')))
                by (simpl List.length; unfold len; lia).
              rewrite Hmem by (rewrite length_app; simpl; lia).
              rewrite app_nth2 by lia. rewrite Nat.sub_diag. reflexivity.
           ++ intros i Hi. apply Hwr in Hi. rewrite len_cons in Hi.
              destruct Hi as [Hi | Hi]; [apply Hw in Hi; lia | lia].
  - (* inside a value *)
    destruct Hin as [Hne [Hlt [Hle Hnulp]]].
    pose proof (continuation_line_accumulates st ws1 c r handler) as Hcont.
    pose proof (accumulate_state (st, []) ws1 (c :: r) handler) as Hacc.
    cbv zeta in Hcont, Hacc. rewrite <- Hsplit in Hcont, Hacc.
    cbn [fst snd] in Hacc. rewrite len_cons in Hacc.
    subst o. rewrite Hcont by (assumption || lia).
    destruct Hacc as [Hstate Hwr]; [discriminate | lia | lia | lia |].
    split.
    + destruct Hstate as [Hz | [Hn' [Hv' Hm']]]; [left; exact Hz |].
      right. unfold in_value_state. rewrite Hn'.
      split; [lia | split; [lia | split; [lia |]]].
      rewrite Hm' by lia. exact Hnulp.
    + intros i Hi. apply Hwr in Hi. destruct Hi as [[] | Hi]. lia.
Qed.

End Parser_facts.

(** C2 on the lines ["foo.bar = baz"], ["key:one"], ["  N  =  V  "] and
    ["N="] with a buffer of 2048 bytes. *)
Lemma record_on_one_line_is_emitted_witness :
  let parse line :=
    emitted (aeron_properties_parse_line 2048 state0 (chars line)
               (len (chars line)) (fun _ _ => 0)) in
  parse "foo.bar = baz"%string = Some (chars "foo.bar", chars "baz") /\
  parse "key:one"%string = Some (chars "key", chars "one") /\
  parse "  N  =  V  "%string = Some (chars "N", chars "V  ") /\
  parse "N="%string = Some (chars "N", []).
Proof.
  intros parse.
  destruct (record_on_one_line_is_emitted 2048
              ltac:(unfold C.INT_MAX; lia) state0 (fun _ _ => 0)
              (conj eq_refl eq_refl)) as [Hgen [Hnv [H1 H2]]].
  split; [| split; [| split]].
  - apply (Hgen [] (chars "foo.bar") [" "%char] "="%char (chars " baz"));
      try reflexivity.
  - apply (Hnv (chars "key") (chars "one") ":"%char); reflexivity.
  - apply H1. lia.
  - apply H2. lia.
Defined.

(** C3 with a buffer of 2048 bytes: the line ["  two\"] and the line ["  \"]
    in a state inside a value, the line ["key:one\"] between records, and
    the two lines ["N=AB\"] and ["  CD"]. *)
Lemma continuation_is_appended_witness :
  let h : aeron_properties_file_handler_func_t := fun _ _ => 0 in
  let o := aeron_properties_parse_line 2048 state_N_AB (chars "  two\") 6 h in
  let z := aeron_properties_parse_line 2048 state_N_AB (chars "  \") 3 h in
  let k := aeron_properties_parse_line 2048 state0 (chars "key:one\") 8 h in
  let o1 := aeron_properties_parse_line 2048 state0 (chars "N=AB\") 5 h in
  let o2 := aeron_properties_parse_line 2048 (state o1) (chars "  CD") 4 h in
  (result o = 0 /\ emitted o = None /\ name_end (state o) = 1 /\
   value_end (state o) = 4 + 3 /\ writes o = [4; 5; 6]) /\
  (result z = 0 /\ emitted z = None /\ state z = state_N_AB /\ writes z = []) /\
  (result k = 0 /\ emitted k = None /\ holds (state k) (chars "key") (chars "one")) /\
  (result o1 = 0 /\ emitted o1 = None /\
   emitted o2 = Some (chars "N", chars "ABCD")).
Proof.
  intros h o z k o1 o2.
  destruct (continuation_is_appended 2048 ltac:(unfold C.INT_MAX; lia) h)
    as [Ha [Hz [Hk He]]].
  assert (Hin : in_value_state 2048 state_N_AB).
  { unfold in_value_state. simpl. repeat split; try lia; reflexivity. }
  split; [| split; [| split]].
  - destruct (Ha state_N_AB (chars "  ") (chars "two") Hin
                ltac:(vm_compute; reflexivity) eq_refl eq_refl)
      as [R1 [R2 [R3 [R4 [_ [_ R5]]]]]].
    repeat split; assumption.
  - apply (Hz state_N_AB (chars "  ") Hin ltac:(vm_compute; reflexivity) eq_refl).
  - apply (Hk state0 [] (chars "key") [] ":"%char [] (chars "one")
             (conj eq_refl eq_refl) ltac:(vm_compute; reflexivity)); reflexivity.
  - apply (He state0 (conj eq_refl eq_refl)). lia.
Defined.

(** C4 on a comment line inside a continued record. *)
Lemma comment_or_blank_is_skipped_witness :
  let st := {| property_str := fun k => if k =? 1 then NUL else "N"%char;
               name_end := 1; value_end := 4 |} in
  aeron_properties_parse_line 2048 st (chars "  # ignored")
    (len (chars "  # ignored")) (fun _ _ => 0)
  = {| result := 0; state := st; error := None; emitted := None;
       writes := [] |}.
Proof.
  intros st.
  apply (comment_or_blank_is_skipped 2048).
  - unfold C.INT_MAX. lia.
  - right. unfold in_value_state. simpl. repeat split; lia.
  - vm_compute. reflexivity.
  - reflexivity.
Defined.

(** C5 on a line of 2047 spaces and a state in the middle of a value. *)
Lemma line_too_long_fails_witness :
  let st := {| property_str := fun k => if k =? 1 then NUL else "N"%char;
               name_end := 1; value_end := 4 |} in
  let o := aeron_properties_parse_line 2048 st (repeat " "%char 2047) 2047
             (fun _ _ => 0) in
  result o = -1 /\ state o = st /\
  error o = Some (Line_too_long (C.size_t (2047 + C.size_t (value_end st)))) /\
  emitted o = None /\ writes o = [].
Proof.
  intros st.
  apply (line_too_long_fails 2048).
  - unfold C.INT_MAX. lia.
  - simpl. lia.
  - lia.
  - simpl. lia.
Defined.

(** C7 on a handler that returns 7. *)
Lemma emission_returns_handler_result_witness :
  let o := aeron_properties_parse_line 2048 state0 (chars "N=V") 3
             (fun _ _ => 7) in
  result o = 7 /\ zero_state (state o).
Proof.
  apply (emission_returns_handler_result 2048 state0 (chars "N=V") 3
           (fun _ _ => 7) (chars "N") (chars "V")).
  vm_compute. reflexivity.
Defined.

(** ** The environment adapter *)

Lemma env_name_loop_maps (capacity : Z) (name : list ascii) (n : nat) :
  no_nul name = true -> (List.length name < n)%nat ->
  env_name_loop n name = Some (map env_char name).
Proof.
  revert n. induction name as [| c name IH]; intros n Hn Hlt.
  - destruct n as [| n]; [simpl in Hlt; lia | reflexivity].
  - destruct n as [| n]; [simpl in Hlt; lia |].
    simpl in Hn. apply andb_true_iff in Hn. destruct Hn as [Hc Hn].
    apply negb_true_iff in Hc. simpl in Hlt.
    simpl env_name_loop. simpl map. rewrite IH by (auto; lia).
    change (env_char c) with (if (c =? ".")%char then "_"%char else toupper c).
    destruct (c =? ".")%char; [reflexivity |].
    rewrite Hc. reflexivity.
Qed.

(** C8. For a name and a value as the parser emits them, a name that is a
    C string shorter than the buffer, [aeron_properties_setenv] makes the
    key from the name character by character, ['.'] to ['_'] and any other
    character to its upper case, up to the null; it asks to unset the key
    when the value is empty and to set it, with overwrite, to the value
    otherwise; it returns 0 on every input. The key of ["aeron.dir"] is
    ["AERON_DIR"]. *)
Theorem setenv_maps_the_name (capacity : Z) (name value : list ascii) :
  no_nul name = true -> len name < capacity ->
  aeron_properties_setenv capacity name [] = (0, Some (Unsetenv (map env_char name))) /\
  (value <> [] -> no_nul value = true ->
   aeron_properties_setenv capacity name value
   = (0, Some (Setenv (map env_char name) value true))) /\
  (forall n v, fst (aeron_properties_setenv capacity n v) = 0) /\
  (forall c, env_char c
             = if (c =? ".")%char then "_"%char
               else if ((97 <=? nat_of_ascii c) && (nat_of_ascii c <=? 122))%nat
                    then ascii_of_nat (nat_of_ascii c - 32) else c) /\
  map env_char (chars "aeron.dir") = chars "AERON_DIR".
Proof.
  intros Hn Hlen.
  assert (Hkey : env_name_loop (Z.to_nat capacity) name
                 = Some (map env_char name)).
  { apply (env_name_loop_maps capacity); [exact Hn | unfold len in Hlen; lia]. }
  split; [| split; [| split; [| split]]].
  - unfold aeron_properties_setenv. rewrite Hkey. reflexivity.
  - intros Hv Hvn. unfold aeron_properties_setenv. rewrite Hkey.
    destruct value as [| c v]; [contradiction |].
    simpl in Hvn. apply andb_true_iff in Hvn. destruct Hvn as [Hc _].
    apply negb_true_iff in Hc. simpl hd. rewrite Hc. reflexivity.
  - intros n v. unfold aeron_properties_setenv.
    destruct (hd NUL v =? NUL)%char; reflexivity.
  - intros c. reflexivity.
  - reflexivity.
Qed.

(** C8 on the name ["aeron.dir"], with the value ["/dev/shm/aeron"] and
    with the empty value. *)
Lemma setenv_maps_the_name_witness :
  aeron_properties_setenv 2048 (chars "aeron.dir") []
  = (0, Some (Unsetenv (chars "AERON_DIR"))) /\
  aeron_properties_setenv 2048 (chars "aeron.dir") (chars "/dev/shm/aeron")
  = (0, Some (Setenv (chars "AERON_DIR") (chars "/dev/shm/aeron") true)).
Proof.
  destruct (setenv_maps_the_name 2048 (chars "aeron.dir")
              (chars "/dev/shm/aeron") eq_refl eq_refl)
    as [H1 [H2 _]].
  split; [exact H1 |].
  apply H2; [discriminate | reflexivity].
Defined.

(** ** The trimming loop below the start of the name

    The loop that trims the name runs [j] down to the start of the line, not
    to the start of the name. When the separator is the first character
    after the leading blanks, it goes through these blanks: [name_end]
    falls below zero, with a store before the array each time, and the test
    [0 == state->name_end] no longer sees that the name is empty. *)

(** C1, at the line ["  =x"] in the state between records: the name is
    empty, and the function does not fail; it calls the handler with the
    empty name and the value ["x"], taken from one byte before the array,
    and returns what the handler returns. With no blank before the
    separator, ["=x"], it fails as it should. *)
Theorem empty_name_after_two_blanks_is_emitted (mem : Z -> ascii)
    (handler : aeron_properties_file_handler_func_t) :
  let o := aeron_properties_parse_line 2048 (zero_with mem) (chars "  =x") 4
             handler in
  let ok := aeron_properties_parse_line 2048 (zero_with mem) (chars "=x") 2
              handler in
  result o = handler [] (chars "x") /\
  emitted o = Some ([], chars "x") /\ error o = None /\
  writes o = [0; -1; -2; -1; 0] /\
  result ok = -1 /\ error ok = Some Malformed_line /\
  zero_state (state ok).
Proof.
  cbv zeta. unfold zero_state. repeat split.
Qed.

(** C6, at the line ["  =x\"] in the state between records: the function
    returns 0 and leaves [name_end] at -2 and [value_end] at 0, a state that
    is neither the zero state nor a state inside a value. *)
Theorem empty_name_leaves_negative_name_end (mem : Z -> ascii)
    (handler : aeron_properties_file_handler_func_t) :
  let o := aeron_properties_parse_line 2048 (zero_with mem) (chars "  =x\") 5
             handler in
  result o = 0 /\ emitted o = None /\
  name_end (state o) = -2 /\ value_end (state o) = 0 /\
  ~ zero_state (state o) /\ ~ in_value_state 2048 (state o).
Proof.
  cbv zeta. unfold zero_state, in_value_state.
  split; [reflexivity |]. split; [reflexivity |].
  split; [reflexivity |]. split; [reflexivity |].
  split; simpl; intros H; lia.
Qed.

(** C10, at the line [" =x"] in the state between records, which is within
    the bound: the trimming loop takes [name_end] to -1 and stores a null at
    index -1, before the array. *)
Theorem trim_loop_stores_before_the_buffer (mem : Z -> ascii)
    (handler : aeron_properties_file_handler_func_t) :
  let o := aeron_properties_parse_line 2048 (zero_with mem) (chars " =x") 3
             handler in
  writes o = [0; -1] /\
  ~ Forall (fun i => 0 <= i < 2048) (writes o) /\
  fst (trim_loop 1 (chars " =x") (zero_with mem, [])) = 
  fst (poke (set_name_end (zero_with mem, []) (-1)) (-1) NUL).
Proof.
  cbv zeta. split; [reflexivity | split; [| reflexivity]].
  intros H. simpl in H. inversion H as [| i0 l0 _ H1].
  inversion H1 as [| i1 l1 Hneg _]. lia.
Qed.

(** ** The loader *)

Section Loader_facts.

Variable capacity : Z.
Variable before_line : ascii.

(** Every path out of the loop closes the stream, once. *)
Lemma load_loop_closes (raw : list (list ascii)) (e : stream_end)
    (st : aeron_properties_parser_state_t) (lineno : Z)
    (calls : list (option env_call)) (seen : list (list ascii * Z)) :
  fclose_calls (load_loop capacity before_line raw e st lineno calls seen)
  = 1%nat.
Proof.
  revert st lineno calls seen.
  induction raw as [| line raw IH]; intros st lineno calls seen.
  - simpl. destruct e; reflexivity.
  - simpl.
    destruct (line_at before_line line (C.size_t (len line - 1)) =? LF)%char;
      [| reflexivity].
    destruct (line_at before_line (removelast line)
                (C.size_t (C.size_t (len line - 1) - 1)) =? CR)%char;
      match goal with
      | |- context [if ?b then _ else _] => destruct b
      end; try reflexivity; apply IH.
Qed.

(** The loop returns 0 without an error, or -1 with one. *)
Lemma load_loop_result (raw : list (list ascii)) (e : stream_end)
    (st : aeron_properties_parser_state_t) (lineno : Z)
    (calls : list (option env_call)) (seen : list (list ascii * Z)) :
  let o := load_loop capacity before_line raw e st lineno calls seen in
  (load_result o = 0 /\ load_err o = None) \/
  (load_result o = -1 /\ load_err o <> None).
Proof.
  revert st lineno calls seen.
  induction raw as [| line raw IH]; intros st lineno calls seen.
  - simpl. destruct e; [left | right]; split; try reflexivity; discriminate.
  - simpl.
    destruct (line_at before_line line (C.size_t (len line - 1)) =? LF)%char;
      [| right; split; [reflexivity | discriminate]].
    destruct (line_at before_line (removelast line)
                (C.size_t (C.size_t (len line - 1) - 1)) =? CR)%char;
      match goal with
      | |- context [if ?b then _ else _] => destruct b
      end; try apply IH; right; split; try reflexivity; discriminate.
Qed.

(** A string from [fgets] that does not end in a newline stops the load with
    the number of the line. *)
Lemma load_loop_unterminated (line : list ascii) (raw : list (list ascii))
    (e : stream_end) (st : aeron_properties_parser_state_t) (lineno : Z)
    (calls : list (option env_call)) (seen : list (list ascii * Z)) :
  line <> [] -> len line < 2 ^ 63 -> (last line NUL =? LF)%char = false ->
  load_loop capacity before_line (line :: raw) e st lineno calls seen
  = {| load_result := -1; load_err := Some (Line_not_terminated lineno);
       env_calls := calls; parsed := seen; fclose_calls := 1 |}.
Proof.
  intros Hne Hlen Hlast.
  destruct (exists_last Hne) as [body [c Hbc]]. subst line.
  rewrite last_last in Hlast. rewrite len_app in *. change (len [c]) with 1 in *.
  pose proof (len_nonneg body) as Lb.
  simpl load_loop. rewrite len_app. change (len [c]) with 1.
  replace (len body + 1 - 1) with (len body) by lia.
  rewrite size_t_small by lia.
  unfold line_at. unfold C.SIZE_MAX.
  replace (len body =? 2 ^ 64 - 1) with false
    by (symmetry; apply Z.eqb_neq; lia).
  rewrite char_at_app. rewrite Hlast. reflexivity.
Qed.

(** One round of the loop on a string [body ++ [LF]] with [body] not empty:
    the parser gets [body] without the newline and without a carriage
    return in front of it, with the length of that. *)
Lemma load_loop_line (body : list ascii) (raw : list (list ascii))
    (e : stream_end) (st : aeron_properties_parser_state_t) (lineno : Z)
    (calls : list (option env_call)) (seen : list (list ascii * Z)) :
  body <> [] -> len body < 2 ^ 63 ->
  load_loop capacity before_line ((body ++ [LF]) :: raw) e st lineno calls seen
  = let line := strip_cr body in
    let o := aeron_properties_parse_line capacity st line (len line)
               (aeron_properties_setenv_property capacity) in
    let calls' :=
      match emitted o with
      | Some (name, value) =>
          calls ++ [snd (aeron_properties_setenv capacity name value)]
      | None => calls
      end in
    if result o <? 0 then
      {| load_result := -1; load_err := Some (Line_malformed lineno);
         env_calls := calls'; parsed := seen ++ [(line, len line)];
         fclose_calls := 1 |}
    else
      load_loop capacity before_line raw e (state o) (lineno + 1) calls'
        (seen ++ [(line, len line)]).
Proof.
  intros Hne Hlen.
  destruct (exists_last Hne) as [b [c Hbc]].
  pose proof (len_nonneg body) as Lb. pose proof (len_nonneg b) as Lb'.
  assert (Hlb : len body = len b + 1) by (rewrite Hbc, len_app; reflexivity).
  simpl load_loop. rewrite len_app. change (len [LF]) with 1.
  replace (len body + 1 - 1) with (len body) by lia.
  rewrite (size_t_small (len body)) by lia.
  unfold line_at at 1. unfold C.SIZE_MAX.
  replace (len body =? 2 ^ 64 - 1) with false
    by (symmetry; apply Z.eqb_neq; lia).
  rewrite char_at_app. change (LF =? LF)%char with true. cbv iota.
  rewrite removelast_last.
  rewrite (size_t_small (len body - 1)) by lia.
  unfold line_at. unfold C.SIZE_MAX.
  replace (len body - 1 =? 2 ^ 64 - 1) with false
    by (symmetry; apply Z.eqb_neq; lia).
  replace (char_at body (len body - 1)) with (last body NUL).
  2:{ rewrite Hbc, last_last. replace (len (b ++ [c]) - 1) with (len b)
        by (rewrite len_app; change (len [c]) with 1; lia).
      rewrite char_at_app. reflexivity. }
  unfold strip_cr.
  destruct (last body NUL =? CR)%char; cbv zeta.
  - replace (len body - 1) with (len (removelast body)).
    2:{ rewrite Hbc, removelast_last, len_app. change (len [c]) with 1. lia. }
    reflexivity.
  - reflexivity.
Qed.

(** An empty line, when the byte before the array is no carriage return,
    goes to the parser as the empty string. *)
Lemma load_loop_empty_line (raw : list (list ascii))
    (e : stream_end) (st : aeron_properties_parser_state_t) (lineno : Z)
    (calls : list (option env_call)) (seen : list (list ascii * Z)) :
  before_line <> CR ->
  load_loop capacity before_line ([LF] :: raw) e st lineno calls seen
  = let o := aeron_properties_parse_line capacity st [] 0
               (aeron_properties_setenv_property capacity) in
    let calls' :=
      match emitted o with
      | Some (name, value) =>
          calls ++ [snd (aeron_properties_setenv capacity name value)]
      | None => calls
      end in
    if result o <? 0 then
      {| load_result := -1; load_err := Some (Line_malformed lineno);
         env_calls := calls'; parsed := seen ++ [([], 0)];
         fclose_calls := 1 |}
    else
      load_loop capacity before_line raw e (state o) (lineno + 1) calls'
        (seen ++ [([], 0)]).
Proof.
  intros Hb. apply Ascii.eqb_neq in Hb.
  cbn [load_loop].
  change (line_at before_line [LF] (C.size_t (len [LF] - 1))) with LF.
  change (LF =? LF)%char with true. cbv iota.
  change (line_at before_line (removelast [LF])
            (C.size_t (C.size_t (len [LF] - 1) - 1))) with before_line.
  rewrite Hb. reflexivity.
Qed.

(** An empty line, when the byte before the array is a carriage return,
    stops the load. *)
Lemma load_loop_empty_line_fails (raw : list (list ascii))
    (e : stream_end) (st : aeron_properties_parser_state_t) (lineno : Z)
    (calls : list (option env_call)) (seen : list (list ascii * Z)) :
  before_line = CR -> 0 < capacity <= C.INT_MAX ->
  - 2 ^ 31 <= value_end st <= capacity ->
  load_loop capacity before_line ([LF] :: raw) e st lineno calls seen
  = {| load_result := -1; load_err := Some (Line_malformed lineno);
       env_calls := calls; parsed := seen ++ [([], C.SIZE_MAX)];
       fclose_calls := 1 |}.
Proof.
  intros Hb Hcap Hve. subst before_line.
  cbn [load_loop].
  change (line_at CR [LF] (C.size_t (len [LF] - 1))) with LF.
  change (LF =? LF)%char with true. cbv iota.
  change (line_at CR (removelast [LF])
            (C.size_t (C.size_t (len [LF] - 1) - 1))) with CR.
  change (CR =? CR)%char with true. cbv iota.
  change (removelast (removelast [LF])) with (@nil ascii).
  change (C.size_t (C.size_t (len [LF] - 1) - 1)) with C.SIZE_MAX.
  destruct (line_too_long_bound capacity Hcap st [] C.SIZE_MAX
              (aeron_properties_setenv_property capacity) Hve)
    as [Hr [_ [_ [He _]]]];
    [unfold C.SIZE_MAX; lia | unfold C.SIZE_MAX, C.INT_MAX in *; lia |].
  rewrite Hr, He. reflexivity.
Qed.

End Loader_facts.

(** The scenarios of the spec, with a buffer of 2048 bytes. *)
Example scenario_S1 :
  let o := aeron_properties_file_load 2048 " "%char
             (file_of_lines ["# header"; "foo.bar = baz"; ""]%string) state0 in
  load_result o = 0 /\
  env_calls o = [Some (Setenv (chars "FOO_BAR") (chars "baz") true)] /\
  fclose_calls o = 1%nat.
Proof. vm_compute. repeat split. Qed.

Example scenario_S2 :
  let o := aeron_properties_file_load 2048 " "%char
             (file_of_lines ["key:one\"; "  two\"; "three"]%string) state0 in
  load_result o = 0 /\
  env_calls o = [Some (Setenv (chars "KEY") (chars "onetwothree") true)].
Proof. vm_compute. repeat split. Qed.

Example scenario_S3 :
  let o := aeron_properties_file_load 2048 " "%char
             (file_of_lines ["novalue="; "next=1"]%string) state0 in
  load_result o = 0 /\
  env_calls o = [Some (Unsetenv (chars "NOVALUE"));
                 Some (Setenv (chars "NEXT") (chars "1") true)].
Proof. vm_compute. repeat split. Qed.

Example scenario_S4 :
  let o := aeron_properties_file_load 2048 " "%char
             (file_of_lines ["broken line"]%string) state0 in
  load_result o = -1 /\ load_err o = Some (Line_malformed 1) /\
  env_calls o = [] /\ fclose_calls o = 1%nat.
Proof. vm_compute. repeat split. Qed.

Example scenario_S5 :
  let o := aeron_properties_file_load 2048 " "%char
             (file_of_lines ["a=b"; "! comment"; "c:d"]%string) state0 in
  load_result o = 0 /\
  env_calls o = [Some (Setenv (chars "A") (chars "b") true);
                 Some (Setenv (chars "C") (chars "d") true)].
Proof. vm_compute. repeat split. Qed.

(** A line longer than the array comes from [fgets] in pieces, the first
    without a newline: here with an array of 8 bytes. *)
Example scenario_S6 :
  let o := aeron_properties_file_load 8 " "%char
             (Some {| fgets_results := [chars "a=b" ++ [LF]; chars "k=12345";
                                        chars "6" ++ [LF]];
                      at_end := End_of_file |}) state0 in
  load_result o = -1 /\ load_err o = Some (Line_not_terminated 2) /\
  env_calls o = [Some (Setenv (chars "A") (chars "b") true)] /\
  fclose_calls o = 1%nat.
Proof. vm_compute. repeat split. Qed.

(** C9, at a file whose first line is empty. The string from [fgets] is a
    lone newline; once it is taken off, [length] is zero and the test for a
    carriage return reads [line[length - 1]], one byte before the array.
    When that byte is a carriage return, [length] wraps to [SIZE_MAX], the
    parser rejects the line as too long and the load fails at line 1; with
    a space there the empty line is skipped and the load succeeds. *)
Theorem load_of_empty_line_reads_before_the_line
    (uninit : aeron_properties_parser_state_t) :
  let file := Some {| fgets_results := [[LF]]; at_end := End_of_file |} in
  let bad := aeron_properties_file_load 2048 CR file uninit in
  load_result bad = -1 /\ load_err bad = Some (Line_malformed 1) /\
  parsed bad = [([], C.SIZE_MAX)] /\
  let good := aeron_properties_file_load 2048 " "%char file uninit in
  load_result good = 0 /\ load_err good = None /\ parsed good = [([], 0)].
Proof.
  cbv zeta. repeat split.
Qed.

(** ** More on the scanner *)

(** What the loop returns on what is left of the string at index [i]. *)
Lemma scan_from_sound (rest : list ascii) (i e : Z) :
  0 <= i -> e < 2 ^ 31 ->
  let r := scan_from rest i e in
  r = -1 \/
  (i <= r <= e /\ (Z.to_nat (r - i) < List.length rest)%nat /\
   is_blank (nth (Z.to_nat (r - i)) rest NUL) = false /\
   (nth (Z.to_nat (r - i)) rest NUL =? NUL)%char = false /\
   forall j, i <= j < r -> is_blank (nth (Z.to_nat (j - i)) rest NUL) = true).
Proof.
  revert i. induction rest as [| c rest IH]; intros i Hi He; cbn [scan_from].
  - destruct (e <? i); left; reflexivity.
  - destruct (Z.ltb_spec e i) as [Hlt | Hle]; [left; reflexivity |].
    destruct (is_blank c) eqn:Hc.
    + destruct (IH (i + 1) ltac:(lia) He) as [Hr | [Hr [Hlen [Hb [Hn Hbefore]]]]];
        [left; exact Hr | right].
      set (r := scan_from rest (i + 1) e) in *.
      replace (Z.to_nat (r - i)) with (S (Z.to_nat (r - (i + 1)))) by lia.
      cbn [nth List.length].
      split; [lia | split; [lia | split; [exact Hb | split; [exact Hn |]]]].
      intros j Hj. destruct (Z.eq_dec j i) as [-> | Hji].
      * rewrite Z.sub_diag. exact Hc.
      * replace (Z.to_nat (j - i)) with (S (Z.to_nat (j - (i + 1)))) by lia.
        cbn [nth]. apply Hbefore. lia.
    + destruct (c =? NUL)%char eqn:Hn; [left; reflexivity | right].
      rewrite int_small by lia. rewrite Z.sub_diag. cbn [Z.to_nat nth List.length].
      split; [lia | split; [lia | split; [exact Hc | split; [exact Hn |]]]].
      intros j Hj. lia.
Qed.

(** The loop over blanks that fill the range to its end finds nothing. *)
Lemma scan_from_exhausted (ws rest : list ascii) (i e : Z) :
  all_blank ws = true -> e < i + len ws ->
  scan_from (ws ++ rest) i e = -1.
Proof.
  revert i. induction ws as [| c ws IH]; intros i Hb He.
  - rewrite len_nil in He. cbn [app]. destruct rest; cbn [scan_from];
      replace (e <? i) with true by (symmetry; apply Z.ltb_lt; lia);
      reflexivity.
  - simpl in Hb. apply andb_true_iff in Hb. destruct Hb as [Hc Hws].
    rewrite len_cons in He. cbn [app scan_from]. rewrite Hc.
    destruct (e <? i); [reflexivity |]. apply IH; [exact Hws | lia].
Qed.

(** X1. Whatever the string, from a start that is not negative and with an
    end that fits an [int], [aeron_next_non_whitespace] returns -1 or an
    index of the range, inside the string, whose character is neither a
    blank nor the null, with only blanks from the start up to it. *)
Theorem next_non_whitespace_sound (buffer : list ascii) (start end_ : Z) :
  0 <= start -> end_ < 2 ^ 31 ->
  let r := aeron_next_non_whitespace buffer start end_ in
  r = -1 \/
  (start <= r <= end_ /\ r < len buffer /\
   is_blank (char_at buffer r) = false /\ char_at buffer r <> NUL /\
   forall j, start <= j < r -> is_blank (char_at buffer j) = true).
Proof.
  intros Hs He. unfold aeron_next_non_whitespace.
  destruct (scan_from_sound (skipn (Z.to_nat start) buffer) start end_ Hs He)
    as [Hr | [Hr [Hlen [Hb [Hn Hbefore]]]]]; [left; exact Hr | right].
  set (r := scan_from (skipn (Z.to_nat start) buffer) start end_) in *.
  rewrite length_skipn in Hlen. rewrite nth_skipn in Hb, Hn.
  replace (Z.to_nat start + Z.to_nat (r - start))%nat with (Z.to_nat r)
    in Hb, Hn by lia.
  assert (Hat : char_at buffer r = nth (Z.to_nat r) buffer NUL).
  { unfold char_at. replace (r <? 0) with false
      by (symmetry; apply Z.ltb_ge; lia). reflexivity. }
  split; [exact Hr | split; [unfold len; lia |]].
  rewrite Hat. split; [exact Hb | split].
  - intros H. rewrite H in Hn. discriminate Hn.
  - intros j Hj. specialize (Hbefore j Hj). rewrite nth_skipn in Hbefore.
    unfold char_at. replace (j <? 0) with false
      by (symmetry; apply Z.ltb_ge; lia).
    replace (Z.to_nat start + Z.to_nat (j - start))%nat with (Z.to_nat j)
      in Hbefore by lia.
    exact Hbefore.
Qed.

(** X1 on the string ["  ab"], scanned from 0 to 3. *)
Lemma next_non_whitespace_sound_witness :
  let buffer := chars "  ab" in
  let r := aeron_next_non_whitespace buffer 0 3 in
  r = -1 \/
  (0 <= r <= 3 /\ r < len buffer /\
   is_blank (char_at buffer r) = false /\ char_at buffer r <> NUL /\
   forall j, 0 <= j < r -> is_blank (char_at buffer j) = true).
Proof.
  apply (next_non_whitespace_sound (chars "  ab") 0 3); lia.
Defined.

(** X2. After the blanks that follow the start, the first character that is
    neither a blank nor the null is found, when it lies in the range: the
    result is its index. *)
Theorem next_non_whitespace_finds_first (pre ws : list ascii) (c : ascii)
    (rest : list ascii) (end_ : Z) :
  all_blank ws = true -> is_blank c = false -> (c =? NUL)%char = false ->
  len pre + len ws <= end_ -> end_ < 2 ^ 31 ->
  aeron_next_non_whitespace (pre ++ ws ++ c :: rest) (len pre) end_
  = len pre + len ws.
Proof.
  intros Hws Hc Hn Hle He.
  pose proof (len_nonneg pre) as Lp. pose proof (len_nonneg ws) as Lw.
  unfold aeron_next_non_whitespace. rewrite skipn_len_app.
  rewrite scan_from_blanks by (auto; lia).
  rewrite scan_from_found by (auto; lia).
  apply int_small. lia.
Qed.

(** X2 on ["key =  value"], scanned from index 5, after the separator. *)
Lemma next_non_whitespace_finds_first_witness :
  aeron_next_non_whitespace (chars "key =" ++ chars "  " ++ chars "value") 5 11
  = 5 + 2.
Proof.
  apply (next_non_whitespace_finds_first (chars "key =") (chars "  ")
           "v"%char (chars "alue") 11); try reflexivity; simpl; lia.
Defined.

(** X3. The scan finds nothing, and returns -1, when only blanks are left in
    the string, when a null follows the blanks, whatever comes after it,
    and when the blanks go on beyond the end of the range. *)
Theorem next_non_whitespace_none (pre ws rest : list ascii) (end_ : Z) :
  all_blank ws = true ->
  rest = [] \/ hd " "%char rest = NUL \/ end_ < len pre + len ws ->
  aeron_next_non_whitespace (pre ++ ws ++ rest) (len pre) end_ = -1.
Proof.
  intros Hws Hcase. unfold aeron_next_non_whitespace. rewrite skipn_len_app.
  destruct (Z_lt_le_dec end_ (len pre + len ws)) as [Hlt | Hle].
  { apply scan_from_exhausted; assumption. }
  rewrite scan_from_blanks by (auto; lia).
  destruct Hcase as [-> | [Hnul | Hlt]]; [| | lia].
  - cbn [scan_from]. destruct (end_ <? len pre + len ws); reflexivity.
  - destruct rest as [| c r]; cbn [scan_from];
      [destruct (end_ <? len pre + len ws); reflexivity |].
    cbn [hd] in Hnul. subst c.
    destruct (end_ <? len pre + len ws); reflexivity.
Qed.

(** X3 on a string with a null after two blanks and text after the null. *)
Lemma next_non_whitespace_none_witness :
  aeron_next_non_whitespace
    (chars "a=" ++ chars "  " ++ NUL :: chars "hidden") 2 9 = -1.
Proof.
  apply (next_non_whitespace_none (chars "a=") (chars "  ")
           (NUL :: chars "hidden") 9); [reflexivity |].
  right. left. reflexivity.
Defined.

(** ** More on the line parser *)

(** X4. The return value, the error and the emission go together, on every
    input: a line too long gives -1 with the state as it was and no store;
    a malformed line gives -1 with the state reset; in both cases the
    handler is not called. Without error and without emission the result
    is 0, and an emission comes without error. *)
Theorem parse_line_result_discipline (capacity : Z)
    (st : aeron_properties_parser_state_t) (line : list ascii) (length : Z)
    (handler : aeron_properties_file_handler_func_t) :
  let o := aeron_properties_parse_line capacity st line length handler in
  (forall total, error o = Some (Line_too_long total) ->
     result o = -1 /\ emitted o = None /\ state o = st /\ writes o = []) /\
  (error o = Some Malformed_line ->
     result o = -1 /\ emitted o = None /\ zero_state (state o)) /\
  (error o = None -> emitted o = None -> result o = 0) /\
  (forall n v, emitted o = Some (n, v) -> error o = None).
Proof.
  cbv zeta. unfold aeron_properties_parse_line, accumulate, emit, zero_state.
  repeat match goal with
         | |- context [if ?b then _ else _] => destruct b
         | |- context [let '(_, _) := ?p in _] => destruct p
         end;
    cbn [result error emitted state writes aeron_properties_parse_init
         name_end value_end];
    repeat split; intros; try discriminate; auto.
Qed.

Section More_parser_facts.

Variable capacity : Z.
Hypothesis capacity_range : 0 < capacity <= C.INT_MAX.

(** X5. Between records, a line within the bound whose first character
    after the blanks is neither a comment mark nor a separator, and that
    holds no separator at all, is malformed: the result is -1, the handler
    is not called, the state is reset, and the stores made for the name are
    the indices from 0 to the length of the text, inside the buffer. *)
Theorem line_without_separator_is_malformed
    (st : aeron_properties_parser_state_t)
    (ws1 : list ascii) (c : ascii) (r : list ascii)
    (handler : aeron_properties_file_handler_func_t) :
  let line := ws1 ++ c :: r in
  zero_state st -> all_blank ws1 = true ->
  is_blank c = false -> is_comment c = false -> (c =? NUL)%char = false ->
  no_separator (c :: r) = true -> len line < capacity ->
  let o := aeron_properties_parse_line capacity st line (len line) handler in
  result o = -1 /\ error o = Some Malformed_line /\ emitted o = None /\
  zero_state (state o) /\ writes o = range 0 (List.length (c :: r)) /\
  (forall i, In i (writes o) -> 0 <= i < capacity).
Proof.
  intros line Hst Hws Hb Hc Hn Hsep Hlen o.
  destruct (line_without_separator_is_rejected capacity capacity_range st ws1
              c r handler Hst Hws Hb Hc Hn Hsep Hlen)
    as [H1 [H2 [H3 [H4 H5]]]].
  fold line in H1, H2, H3, H4, H5. fold o in H1, H2, H3, H4, H5.
  repeat (split; [assumption |]).
  intros i Hi. rewrite H5 in Hi. apply range_bounds in Hi.
  pose proof (len_nonneg ws1). unfold line in Hlen. rewrite len_app in Hlen.
  unfold len in *. lia.
Qed.

(** X6. Between records, a line within the bound that starts with the
    separator has an empty name and is malformed: the result is -1, the
    handler is not called, the state is reset, and the one store is the
    null at index 0. *)
Theorem leading_separator_is_malformed
    (st : aeron_properties_parser_state_t) (sep : ascii) (rest : list ascii)
    (handler : aeron_properties_file_handler_func_t) :
  zero_state st -> is_separator sep = true ->
  len (sep :: rest) < capacity ->
  let o := aeron_properties_parse_line capacity st (sep :: rest)
             (len (sep :: rest)) handler in
  result o = -1 /\ error o = Some Malformed_line /\ emitted o = None /\
  zero_state (state o) /\ writes o = [0].
Proof.
  intros Hst Hsep Hlen.
  apply (separator_first_is_rejected capacity capacity_range); assumption.
Qed.

End More_parser_facts.

(** X5 on the line ["  broken line"]. *)
Lemma line_without_separator_is_malformed_witness :
  let line := chars "  broken line" in
  let o := aeron_properties_parse_line 2048 state0 line (len line)
             (fun _ _ => 0) in
  result o = -1 /\ error o = Some Malformed_line /\ emitted o = None /\
  zero_state (state o) /\ writes o = range 0 11 /\
  (forall i, In i (writes o) -> 0 <= i < 2048).
Proof.
  apply (line_without_separator_is_malformed 2048
           ltac:(unfold C.INT_MAX; lia) state0 (chars "  ") "b"%char
           (chars "roken line") (fun _ _ => 0));
    try reflexivity.
  split; reflexivity.
Defined.

(** X6 on the line ["=value"]. *)
Lemma leading_separator_is_malformed_witness :
  let o := aeron_properties_parse_line 2048 state0 (chars "=value") 6
             (fun _ _ => 0) in
  result o = -1 /\ error o = Some Malformed_line /\ emitted o = None /\
  zero_state (state o) /\ writes o = [0].
Proof.
  apply (leading_separator_is_malformed 2048 ltac:(unfold C.INT_MAX; lia)
           state0 "="%char (chars "value") (fun _ _ => 0));
    try reflexivity.
  split; reflexivity.
Defined.

(** The stores of the trimming loop. *)
Lemma trim_n_writes_incl (k : nat) (m : run) (i : Z) :
  In i (snd m) -> In i (snd (trim_n k m)).
Proof.
  revert m. induction k as [| k IH]; intros m Hi; [exact Hi |].
  cbn [trim_n]. apply IH. unfold poke, set_name_end. cbn [fst snd].
  apply in_or_app. left. exact Hi.
Qed.

Lemma trim_n_stores (k : nat) (m : run) (j : Z) :
  1 <= j <= Z.of_nat k -> In (name_end (fst m) - j) (snd (trim_n k m)).
Proof.
  revert m j. induction k as [| k IH]; intros m j Hj; [lia |].
  cbn [trim_n]. destruct (Z.eq_dec j 1) as [-> | Hj1].
  - apply trim_n_writes_incl. unfold poke, set_name_end. cbn [fst snd name_end].
    apply in_or_app. right. left. reflexivity.
  - replace (name_end (fst m) - j)
      with (name_end (fst (poke (set_name_end m (name_end (fst m) - 1))
                             (name_end (fst (set_name_end m (name_end (fst m) - 1))))
                             NUL)) - (j - 1))
      by (cbn [poke set_name_end fst name_end]; lia).
    apply IH. lia.
Qed.

Section Underflow.

Variable capacity : Z.
Hypothesis capacity_range : 0 < capacity <= C.INT_MAX.

(** X7. Between records, on a line within the bound whose separator comes
    right after one or more blanks, the trimming loop stores a null before
    the buffer for each of these blanks, at the indices -1 down to minus
    their number. With one blank the line is then rejected as malformed;
    with two or more it is not: the function goes on to the value without
    any error. *)
Theorem blanks_before_separator_underflow
    (st : aeron_properties_parser_state_t) (ws : list ascii) (sep : ascii)
    (rest : list ascii) (handler : aeron_properties_file_handler_func_t) :
  let line := ws ++ sep :: rest in
  zero_state st -> ws <> [] -> all_blank ws = true ->
  is_separator sep = true -> len line < capacity ->
  let o := aeron_properties_parse_line capacity st line (len line) handler in
  (forall j, 1 <= j <= len ws -> In (- j) (writes o)) /\
  (len ws = 1 -> result o = -1 /\ error o = Some Malformed_line) /\
  (2 <= len ws -> error o = None).
Proof.
  intros line [Hne Hve] Hnonempty Hws Hsep Hlen o.
  unfold C.INT_MAX in capacity_range.
  destruct (is_separator_facts sep Hsep) as [Hb [Hc Hn]].
  pose proof (len_nonneg ws) as Lw. pose proof (len_nonneg rest) as Lr.
  assert (Hl : len line = len ws + (1 + len rest))
    by (unfold line; rewrite len_app, len_cons; reflexivity).
  assert (Lw1 : 1 <= len ws).
  { destruct ws; [contradiction |]. rewrite len_cons.
    pose proof (len_nonneg ws). lia. }
  subst o. unfold aeron_properties_parse_line.
  rewrite Hne, Hve. change (0 <? 0) with false. cbv iota.
  rewrite (size_t_small 0) by lia. rewrite Z.sub_0_r.
  rewrite size_t_small by lia. rewrite Z.geb_leb.
  replace (capacity <=? len line) with false
    by (symmetry; apply Z.leb_gt; lia).
  assert (Hcur : aeron_next_non_whitespace line 0 (C.size_t (len line - 1))
                 = len ws).
  { unfold aeron_next_non_whitespace. simpl skipn.
    rewrite size_t_small by lia. rewrite Hl. unfold line.
    rewrite scan_from_blanks by (auto; lia).
    rewrite scan_from_found by (auto; lia).
    apply int_small. lia. }
  rewrite Hcur.
  replace (len ws =? -1) with false by (symmetry; apply Z.eqb_neq; lia).
  replace (char_at line (len ws)) with sep
    by (unfold line; rewrite char_at_app; reflexivity).
  rewrite Hc. cbn [orb].
  replace (Z.to_nat (len line - len ws)) with (S (List.length rest))
    by (rewrite Hl; unfold len; lia).
  cbn [name_loop].
  replace (char_at line (len ws)) with sep
    by (unfold line; rewrite char_at_app; reflexivity).
  rewrite Hsep. rewrite trim_count by lia.
  replace (Z.to_nat (len ws)) with (List.length (@nil ascii) + List.length ws)%nat
    by (unfold len; cbn [List.length]; lia).
  replace line with ([] ++ ws ++ sep :: rest) by reflexivity.
  rewrite trim_loop_blanks by exact Hws.
  cbn [List.length trim_loop].
  set (M1 := poke (st, []) (name_end (fst (st, []))) NUL).
  set (M := set_value_end (trim_n (List.length ws) M1)
              (name_end (fst (trim_n (List.length ws) M1)) + 1)).
  assert (HneM : name_end (fst M) = - len ws).
  { unfold M, set_value_end. cbn [fst name_end].
    rewrite trim_n_name_end. unfold M1, poke. cbn [fst name_end].
    rewrite Hne. unfold len. lia. }
  assert (HveM : value_end (fst M) = 1 - len ws).
  { unfold M, set_value_end. cbn [fst value_end].
    rewrite trim_n_name_end. unfold M1, poke. cbn [fst name_end].
    rewrite Hne. unfold len. lia. }
  assert (HwM : forall j, 1 <= j <= len ws -> In (- j) (snd M)).
  { intros j Hj. unfold M, set_value_end. cbn [snd].
    replace (- j) with (name_end (fst M1) - j)
      by (unfold M1, poke; cbn [fst name_end]; lia).
    apply trim_n_stores. unfold len in Hj. lia. }
  cbv zeta. rewrite HneM, HveM.
  destruct (Z.eq_dec (len ws) 1) as [H1 | H1].
  - replace (1 - len ws =? 0) with true by (symmetry; apply Z.eqb_eq; lia).
    cbn [orb result error writes].
    split; [exact HwM | split; [auto | lia]].
  - replace (1 - len ws =? 0) with false by (symmetry; apply Z.eqb_neq; lia).
    replace (- len ws =? 0) with false by (symmetry; apply Z.eqb_neq; lia).
    cbn [orb]. split; [| split; [lia |]].
    + intros j Hj. specialize (HwM j Hj).
      unfold accumulate, emit.
      repeat match goal with
             | |- context [if ?b then _ else _] => destruct b
             end;
        cbn [writes]; unfold set_value_end, poke; cbn [fst snd];
        rewrite ?memcpy_writes; repeat (apply in_or_app; left); exact HwM.
    + intros _. unfold accumulate, emit.
      repeat match goal with
             | |- context [if ?b then _ else _] => destruct b
             end; reflexivity.
Qed.

End Underflow.

(** X7 on the lines [" =x"] and ["   :x"]. *)
Lemma blanks_before_separator_underflow_witness :
  let one := aeron_properties_parse_line 2048 state0 (chars " =x") 3
               (fun _ _ => 0) in
  let three := aeron_properties_parse_line 2048 state0 (chars "   :x") 5
                 (fun _ _ => 0) in
  (In (-1) (writes one) /\ result one = -1 /\ error one = Some Malformed_line) /\
  (In (-3) (writes three) /\ error three = None).
Proof.
  intros one three. split.
  - destruct (blanks_before_separator_underflow 2048
                ltac:(unfold C.INT_MAX; lia) state0 (chars " ") "="%char
                (chars "x") (fun _ _ => 0) (conj eq_refl eq_refl)
                ltac:(discriminate) eq_refl eq_refl eq_refl)
      as [Hw [Hone _]].
    split; [apply (Hw 1); cbv; split; discriminate | apply Hone; reflexivity].
  - destruct (blanks_before_separator_underflow 2048
                ltac:(unfold C.INT_MAX; lia) state0 (chars "   ") ":"%char
                (chars "x") (fun _ _ => 0) (conj eq_refl eq_refl)
                ltac:(discriminate) eq_refl eq_refl eq_refl)
      as [Hw [_ Hmany]].
    split; [apply (Hw 3); cbv; split; discriminate
           | apply Hmany; cbv; discriminate].
Defined.

(** X8 is [parse_line_keeps_invariant]; here on the first line of a record
    whose value goes on. *)
Lemma parse_line_keeps_invariant_witness :
  let line := chars "key = some value\" in
  let o := aeron_properties_parse_line 2048 state0 line (len line)
             (fun _ _ => 0) in
  (zero_state (state o) \/ in_value_state 2048 (state o)) /\
  (forall i, In i (writes o) -> 0 <= i < 2048).
Proof.
  apply (parse_line_keeps_invariant 2048 ltac:(unfold C.INT_MAX; lia) state0
           (chars "key = some value\") (fun _ _ => 0)).
  - left. split; reflexivity.
  - reflexivity.
  - vm_compute. reflexivity.
  - intros _. reflexivity.
Defined.

Section Inside_a_value.

Variable capacity : Z.
Hypothesis capacity_range : 0 < capacity <= C.INT_MAX.

(** X9. In a state inside a value, a call on a C string within the bound
    either completes the record, and the state is reset, or leaves
    [name_end] as it is, does not move [value_end] back and changes no byte
    of the buffer below the old [value_end]: the name and what is gathered
    of the value stay. *)
Theorem continuation_keeps_what_is_gathered
    (st : aeron_properties_parser_state_t) (line : list ascii)
    (handler : aeron_properties_file_handler_func_t) :
  in_value_state capacity st -> no_nul line = true ->
  len line < capacity - value_end st ->
  let o := aeron_properties_parse_line capacity st line (len line) handler in
  zero_state (state o) \/
  (name_end (state o) = name_end st /\
   value_end st <= value_end (state o) /\
   forall k, k < value_end st -> property_str (state o) k = property_str st k).
Proof.
  intros [Hne [Hlt [Hle Hnulp]]] Hnul Hlen o.
  unfold C.INT_MAX in capacity_range.
  destruct (comment_or_blank line) eqn:Hcb.
  { subst o. rewrite (skips_comment_or_blank capacity capacity_range)
      by (assumption || lia).
    right. cbn [state]. split; [reflexivity | split; [lia | reflexivity]]. }
  destruct (drop_blanks_split line) as [ws1 [Hsplit Hws1]].
  unfold comment_or_blank in Hcb.
  destruct (drop_blanks line) as [| c r] eqn:Hd; [discriminate Hcb |].
  pose proof (drop_blanks_head _ _ _ Hd) as Hcblank.
  pose proof (no_nul_drop_blanks capacity capacity_range line Hnul) as Hnr.
  rewrite Hd in Hnr.
  pose proof (len_nonneg ws1) as L1. pose proof (len_nonneg r) as Lr.
  assert (Hl : len line = len ws1 + (1 + len r))
    by (rewrite Hsplit at 1; rewrite len_app, len_cons; reflexivity).
  pose proof (continuation_line_accumulates capacity capacity_range st ws1 c r
                handler) as Hcont.
  pose proof (accumulate_state capacity (st, []) ws1 (c :: r) handler) as Hacc.
  cbv zeta in Hcont, Hacc. rewrite <- Hsplit in Hcont, Hacc.
  cbn [fst snd] in Hacc. rewrite len_cons in Hacc.
  subst o. rewrite Hcont by (assumption || lia).
  destruct Hacc as [[Hz | [Hn' [Hv' Hm']]] _];
    [discriminate | lia | lia | lia | left; exact Hz | right].
  split; [exact Hn' | split; [lia | exact Hm']].
Qed.

(** X10. In a state whose buffer holds a name and the value gathered so
    far, a line within the bound that is no comment and does not end in a
    backslash completes the record: the handler gets the name and the
    gathered value followed by the text of the line without its leading
    blanks, its result is returned and the state is reset. *)
Theorem terminating_fragment_completes_record
    (st : aeron_properties_parser_state_t)
    (name prev ws body : list ascii)
    (handler : aeron_properties_file_handler_func_t) :
  let line := ws ++ body in
  holds st name prev -> name <> [] ->
  no_nul name = true -> no_nul prev = true ->
  len line < capacity - value_end st ->
  all_blank ws = true -> is_fragment body = true -> body <> [] ->
  (last body NUL =? BACKSLASH)%char = false ->
  let o := aeron_properties_parse_line capacity st line (len line) handler in
  emitted o = Some (name, prev ++ body) /\
  result o = handler name (prev ++ body) /\
  zero_state (state o) /\ error o = None.
Proof.
  intros line Hholds Hnm Hnn Hnp Hlen Hws Hfrag Hbody Hlast.
  apply (continuation_line_emits capacity capacity_range); assumption.
Qed.

End Inside_a_value.

Lemma state_N_AB_holds : holds state_N_AB (chars "N") (chars "AB").
Proof.
  unfold holds. split; [reflexivity | split; [reflexivity |]].
  intros k Hk. cbn [app List.length chars list_ascii_of_string] in Hk.
  destruct k as [| [| [| [| k]]]]; try reflexivity. simpl in Hk. lia.
Qed.

(** X9 on the line ["  more\"] in the state that holds [N] and [AB]. *)
Lemma continuation_keeps_what_is_gathered_witness :
  let line := chars "  more\" in
  let o := aeron_properties_parse_line 2048 state_N_AB line (len line)
             (fun _ _ => 0) in
  zero_state (state o) \/
  (name_end (state o) = name_end state_N_AB /\
   value_end state_N_AB <= value_end (state o) /\
   forall k, k < value_end state_N_AB ->
     property_str (state o) k = property_str state_N_AB k).
Proof.
  apply (continuation_keeps_what_is_gathered 2048
           ltac:(unfold C.INT_MAX; lia) state_N_AB (chars "  more\")
           (fun _ _ => 0)).
  - unfold in_value_state. simpl. repeat split; try lia; reflexivity.
  - reflexivity.
  - vm_compute. reflexivity.
Defined.

(** X10 on the line ["  CD"] in the state that holds [N] and [AB]. *)
Lemma terminating_fragment_completes_record_witness :
  let o := aeron_properties_parse_line 2048 state_N_AB (chars "  CD") 4
             (fun _ _ => 7) in
  emitted o = Some (chars "N", chars "ABCD") /\ result o = 7 /\
  zero_state (state o) /\ error o = None.
Proof.
  apply (terminating_fragment_completes_record 2048
           ltac:(unfold C.INT_MAX; lia) state_N_AB (chars "N") (chars "AB")
           (chars "  ") (chars "CD") (fun _ _ => 7) state_N_AB_holds);
    try reflexivity; try discriminate.
Defined.

(** ** More on the environment adapter *)

(** The loop over a name that fills the array stores no terminator. *)
Lemma env_name_loop_overflow (n : nat) (name : list ascii) :
  no_nul name = true -> (n <= List.length name)%nat ->
  env_name_loop n name = None.
Proof.
  revert name. induction n as [| n IH]; intros name Hn Hle; [reflexivity |].
  destruct name as [| c name]; [simpl in Hle; lia |].
  simpl in Hn. apply andb_true_iff in Hn. destruct Hn as [Hc Hn].
  apply negb_true_iff in Hc. simpl in Hle.
  cbn [env_name_loop hd tl]. rewrite (IH name Hn) by lia.
  destruct (c =? ".")%char; [reflexivity |]. rewrite Hc. reflexivity.
Qed.

(** X11. For a name with as many characters as the array [env_name] has
    bytes, or more, the loop fills the array and ends without having stored
    the terminating null: what is passed on as the key is no C string, and
    the function returns 0 all the same. *)
Theorem setenv_long_name_is_unterminated (capacity : Z)
    (name value : list ascii) :
  no_nul name = true -> capacity <= len name ->
  env_name_loop (Z.to_nat capacity) name = None /\
  aeron_properties_setenv capacity name value = (0, None).
Proof.
  intros Hn Hlen.
  assert (H : env_name_loop (Z.to_nat capacity) name = None)
    by (apply env_name_loop_overflow; [exact Hn | unfold len in Hlen; lia]).
  split; [exact H |]. unfold aeron_properties_setenv. rewrite H.
  destruct (hd NUL value =? NUL)%char; reflexivity.
Qed.

(** X11 with an array of 4 bytes and the name ["a.bc"]. *)
Lemma setenv_long_name_is_unterminated_witness :
  env_name_loop (Z.to_nat 4) (chars "a.bc") = None /\
  aeron_properties_setenv 4 (chars "a.bc") (chars "v") = (0, None).
Proof.
  apply (setenv_long_name_is_unterminated 4 (chars "a.bc") (chars "v"));
    [reflexivity | cbv; discriminate].
Defined.

Lemma env_char_facts (c : ascii) :
  (env_char c =? ".")%char = false /\ is_lower (env_char c) = false /\
  env_char (env_char c) = env_char c.
Proof.
  destruct c as [[] [] [] [] [] [] [] []]; vm_compute; repeat split.
Qed.


(** ** More on the loader *)

(** X13. A file that cannot be opened is not closed; a file that was opened
    is closed once, however the load ends: at the end of the stream, on a
    read error, on a string without newline or on a line that the parser
    rejects. *)
Theorem file_load_closes_once (capacity : Z) (before_line : ascii)
    (file : option FILE) (uninit : aeron_properties_parser_state_t) :
  fclose_calls (aeron_properties_file_load capacity before_line file uninit)
  = match file with None => 0%nat | Some _ => 1%nat end.
Proof.
  destruct file as [fpin |]; [| reflexivity].
  unfold aeron_properties_file_load. apply load_loop_closes.
Qed.

(** X14. The load returns 0 with no error recorded, or -1 with one; a file
    that cannot be opened gives -1 with no line parsed and no call to the
    environment. *)
Theorem file_load_result (capacity : Z) (before_line : ascii)
    (file : option FILE) (uninit : aeron_properties_parser_state_t) :
  let o := aeron_properties_file_load capacity before_line file uninit in
  ((load_result o = 0 /\ load_err o = None) \/
   (load_result o = -1 /\ load_err o <> None)) /\
  (file = None ->
   load_result o = -1 /\ load_err o = Some Could_not_open /\
   env_calls o = [] /\ parsed o = []).
Proof.
  cbv zeta. split.
  - destruct file as [fpin |].
    + unfold aeron_properties_file_load. apply load_loop_result.
    + right. split; [reflexivity | discriminate].
  - intros ->. repeat split.
Qed.

(** X15. A string from [fgets] that does not end in a newline stops the
    load at once with the number of its line: it is not given to the
    parser, the strings after it are not looked at, and the calls to the
    environment made for the lines before it stay. *)
Theorem unterminated_line_stops_load (capacity : Z) (before_line : ascii)
    (line : list ascii) (raw : list (list ascii))
    (e : stream_end) (st : aeron_properties_parser_state_t) (lineno : Z)
    (calls : list (option env_call)) (seen : list (list ascii * Z)) :
  line <> [] -> len line < 2 ^ 63 -> (last line NUL =? LF)%char = false ->
  load_loop capacity before_line (line :: raw) e st lineno calls seen
  = {| load_result := -1; load_err := Some (Line_not_terminated lineno);
       env_calls := calls; parsed := seen; fclose_calls := 1 |}.
Proof.
  intros Hne Hlen Hlast. apply load_loop_unterminated; assumption.
Qed.

(** X15 on a file whose second line has no newline. *)
Lemma unterminated_line_stops_load_witness :
  let o := aeron_properties_file_load 2048 " "%char
             (Some {| fgets_results := [chars "a=b" ++ [LF]; chars "c=d";
                                        chars "e=f" ++ [LF]];
                      at_end := End_of_file |}) state0 in
  load_result o = -1 /\ load_err o = Some (Line_not_terminated 2) /\
  env_calls o = [Some (Setenv (chars "A") (chars "b") true)].
Proof.
  cbv zeta. unfold aeron_properties_file_load.
  cbn [fgets_results at_end].
  rewrite (load_loop_line 2048 " "%char (chars "a=b")) by (discriminate || reflexivity).
  cbv zeta. 
  replace (result (aeron_properties_parse_line 2048
                     (aeron_properties_parse_init state0)
                     (strip_cr (chars "a=b")) (len (strip_cr (chars "a=b")))
                     (aeron_properties_setenv_property 2048)) <? 0)
    with false by (vm_compute; reflexivity).
  rewrite (unterminated_line_stops_load 2048 " "%char (chars "c=d"))
    by (discriminate || reflexivity).
  vm_compute. repeat split.
Defined.

(** X16. A string [body ++ [LF]] from [fgets], with [body] not empty: the
    parser gets [body] without the carriage return it may end with, and the
    length of that; when the parser returns a negative value the load stops
    with the number of the line, and otherwise it goes on with the next
    string, the next line number and the state the parser left. *)
Theorem newline_and_carriage_return_are_stripped (capacity : Z)
    (before_line : ascii) (body : list ascii) (raw : list (list ascii))
    (e : stream_end) (st : aeron_properties_parser_state_t) (lineno : Z)
    (calls : list (option env_call)) (seen : list (list ascii * Z)) :
  body <> [] -> len body < 2 ^ 63 ->
  load_loop capacity before_line ((body ++ [LF]) :: raw) e st lineno calls seen
  = let line := strip_cr body in
    let o := aeron_properties_parse_line capacity st line (len line)
               (aeron_properties_setenv_property capacity) in
    let calls' :=
      match emitted o with
      | Some (name, value) =>
          calls ++ [snd (aeron_properties_setenv capacity name value)]
      | None => calls
      end in
    if result o <? 0 then
      {| load_result := -1; load_err := Some (Line_malformed lineno);
         env_calls := calls'; parsed := seen ++ [(line, len line)];
         fclose_calls := 1 |}
    else
      load_loop capacity before_line raw e (state o) (lineno + 1) calls'
        (seen ++ [(line, len line)]).
Proof.
  intros Hne Hlen. apply load_loop_line; assumption.
Qed.

(** X16 on a file with the one line ["dir=/tmp"], ended by a carriage
    return and a newline. *)
Lemma newline_and_carriage_return_are_stripped_witness :
  let o := aeron_properties_file_load 2048 " "%char
             (Some {| fgets_results := [chars "dir=/tmp" ++ [CR; LF]];
                      at_end := End_of_file |}) state0 in
  load_result o = 0 /\ parsed o = [(chars "dir=/tmp", 8)] /\
  env_calls o = [Some (Setenv (chars "DIR") (chars "/tmp") true)].
Proof.
  cbv zeta. unfold aeron_properties_file_load. cbn [fgets_results at_end].
  change (chars "dir=/tmp" ++ [CR; LF])
    with ((chars "dir=/tmp" ++ [CR]) ++ [LF]).
  rewrite (newline_and_carriage_return_are_stripped 2048 " "%char
             (chars "dir=/tmp" ++ [CR]))
    by (discriminate || reflexivity).
  vm_compute. repeat split.
Defined.

(** X17. The line number in an error of the load counts the lines given to
    the parser: a line that the parser rejects is the last one given to it,
    and a string without newline comes right after the lines given to
    it. *)
Theorem error_line_number (capacity : Z) (before_line : ascii)
    (raw : list (list ascii)) (e : stream_end)
    (st : aeron_properties_parser_state_t) (lineno : Z)
    (calls : list (option env_call)) (seen : list (list ascii * Z)) :
  let o := load_loop capacity before_line raw e st lineno calls seen in
  (forall n, load_err o = Some (Line_malformed n) ->
     n = lineno + Z.of_nat (List.length (parsed o))
         - Z.of_nat (List.length seen) - 1) /\
  (forall n, load_err o = Some (Line_not_terminated n) ->
     n = lineno + Z.of_nat (List.length (parsed o))
         - Z.of_nat (List.length seen)) /\
  (List.length seen <= List.length (parsed o))%nat.
Proof.
  revert st lineno calls seen.
  induction raw as [| line raw IH]; intros st lineno calls seen.
  - cbn [load_loop]. destruct e; cbn [load_err parsed];
      repeat split; try discriminate; lia.
  - cbn [load_loop].
    destruct (line_at before_line line (C.size_t (len line - 1)) =? LF)%char.
    2:{ cbn [load_err parsed]. repeat split; try discriminate; try lia.
        intros n H. injection H as <-. lia. }
    destruct (line_at before_line (removelast line)
                (C.size_t (C.size_t (len line - 1) - 1)) =? CR)%char;
      match goal with
      | |- context [if ?b then _ else _] => destruct b
      end;
      cbn [load_err parsed];
      try (repeat split; try discriminate;
           try (intros n H; injection H as <-);
           rewrite ?length_app; cbn [List.length]; lia);
      match goal with
      | |- context [load_loop _ _ raw e ?s ?l ?c ?sn] =>
          destruct (IH s l c sn) as [H1 [H2 H3]];
          rewrite length_app in H1, H2, H3; cbn [List.length] in H1, H2, H3;
          split; [| split]; [ intros n Hn; rewrite (H1 n Hn); lia
                            | intros n Hn; rewrite (H2 n Hn); lia
                            | lia ]
      end.
Qed.

(** ** Files of well-formed lines *)

(** Conjunctions of tests in the hypotheses. *)
Ltac split_tests :=
  repeat match goal with
         | H : (_ && _)%bool = true |- _ =>
             apply andb_true_iff in H; destruct H
         end.

Lemma strip_cr_after (text : list ascii) : strip_cr (text ++ [CR]) = text.
Proof.
  unfold strip_cr. rewrite last_last. change (CR =? CR)%char with true.
  apply removelast_last.
Qed.

Lemma setenv_returns_zero (capacity : Z) (name value : list ascii) :
  aeron_properties_setenv_property capacity name value = 0.
Proof.
  unfold aeron_properties_setenv_property, aeron_properties_setenv.
  destruct (hd NUL value =? NUL)%char; reflexivity.
Qed.

Lemma setenv_call (capacity : Z) (name value : list ascii) :
  no_nul name = true -> len name < capacity -> no_nul value = true ->
  snd (aeron_properties_setenv capacity name value)
  = Some (env_call_of name value).
Proof.
  intros Hn Hlen Hv. unfold aeron_properties_setenv.
  rewrite (env_name_loop_maps capacity) by (auto; unfold len in Hlen; lia).
  destruct value as [| c v]; [reflexivity |].
  simpl in Hv. apply andb_true_iff in Hv. destruct Hv as [Hc _].
  apply negb_true_iff in Hc. cbn [hd]. rewrite Hc. reflexivity.
Qed.

Section Files.

Variable capacity : Z.
Hypothesis capacity_range : 0 < capacity <= C.INT_MAX.
Variable before_line : ascii.
Variable crlf : bool.

(** One round of the loop on the string for a line of text. *)
Lemma load_loop_text (text : list ascii) (raw : list (list ascii))
    (e : stream_end) (st : aeron_properties_parser_state_t) (lineno : Z)
    (calls : list (option env_call)) (seen : list (list ascii * Z)) :
  text_ok crlf text = true -> len text < capacity ->
  load_loop capacity before_line (raw_line crlf text :: raw) e st lineno
    calls seen
  = let o := aeron_properties_parse_line capacity st text (len text)
               (aeron_properties_setenv_property capacity) in
    let calls' :=
      match emitted o with
      | Some (name, value) =>
          calls ++ [snd (aeron_properties_setenv capacity name value)]
      | None => calls
      end in
    if result o <? 0 then
      {| load_result := -1; load_err := Some (Line_malformed lineno);
         env_calls := calls'; parsed := seen ++ [(text, len text)];
         fclose_calls := 1 |}
    else
      load_loop capacity before_line raw e (state o) (lineno + 1) calls'
        (seen ++ [(text, len text)]).
Proof.
  intros Hok Hlen. unfold C.INT_MAX in capacity_range.
  unfold raw_line, eol. unfold text_ok in Hok. destruct crlf.
  - replace (text ++ [CR; LF]) with ((text ++ [CR]) ++ [LF])
      by (rewrite <- app_assoc; reflexivity).
    rewrite load_loop_line.
    + rewrite strip_cr_after. reflexivity.
    + destruct text; discriminate.
    + rewrite len_app. change (len [CR]) with 1. lia.
  - cbn [orb] in Hok. apply andb_true_iff in Hok. destruct Hok as [Hne Hcr].
    apply negb_true_iff in Hcr.
    rewrite load_loop_line.
    + unfold strip_cr. rewrite Hcr. reflexivity.
    + destruct text; [discriminate Hne | discriminate].
    + lia.
Qed.

(** A comment or blank line is passed over, in any state. *)
Lemma load_loop_skips (text : list ascii) (raw : list (list ascii))
    (e : stream_end) (st : aeron_properties_parser_state_t) (lineno : Z)
    (calls : list (option env_call)) (seen : list (list ascii * Z)) :
  0 <= value_end st ->
  text_ok crlf text = true -> comment_or_blank text = true ->
  len text < capacity - value_end st ->
  load_loop capacity before_line (raw_line crlf text :: raw) e st lineno
    calls seen
  = load_loop capacity before_line raw e st (lineno + 1) calls
      (seen ++ [(text, len text)]).
Proof.
  intros Hve Hok Hc Hlen. pose proof (len_nonneg text) as Lt.
  rewrite load_loop_text by (auto; lia).
  rewrite (skips_comment_or_blank capacity capacity_range)
    by (assumption || lia).
  reflexivity.
Qed.

(** A record on one line makes one call to the environment. *)
Lemma load_loop_property (ws1 name ws2 : list ascii) (sep : ascii)
    (rest : list ascii) (raw : list (list ascii))
    (e : stream_end) (st : aeron_properties_parser_state_t) (lineno : Z)
    (calls : list (option env_call)) (seen : list (list ascii * Z)) :
  zero_state st ->
  entry_ok capacity crlf (Property ws1 name ws2 sep rest) = true ->
  let text := ws1 ++ name ++ ws2 ++ sep :: rest in
  exists st',
    zero_state st' /\
    load_loop capacity before_line (raw_line crlf text :: raw) e st lineno
      calls seen
    = load_loop capacity before_line raw e st' (lineno + 1)
        (calls ++ [Some (env_call_of name (drop_blanks rest))])
        (seen ++ [(text, len text)]).
Proof.
  intros Hst Hok text. cbn [entry_ok] in Hok. fold text in Hok.
  split_tests.
  match goal with H : (len text <? capacity) = true |- _ =>
    apply Z.ltb_lt in H; rename H into Hlen end.
  match goal with H : negb _ = true |- _ =>
    apply negb_true_iff in H; rename H into Hlast end.
  destruct (record_line_emits capacity capacity_range st ws1 name ws2 sep rest
              (aeron_properties_setenv_property capacity))
    as [Hem [Hres [Hz _]]]; try assumption.
  fold text in Hem, Hres, Hz.
  exists (state (aeron_properties_parse_line capacity st text (len text)
                   (aeron_properties_setenv_property capacity))).
  split; [exact Hz |].
  rewrite load_loop_text by assumption. cbv zeta.
  rewrite Hem, Hres, setenv_returns_zero. change (0 <? 0) with false.
  cbv iota. rewrite setenv_call; [reflexivity | | |].
  - match goal with H : is_name name = true |- _ =>
      unfold is_name in H; rewrite !andb_true_iff in H; tauto end.
  - pose proof (len_nonneg ws1). pose proof (len_nonneg ws2).
    pose proof (len_nonneg rest). unfold text in Hlen.
    rewrite !len_app, len_cons in Hlen. lia.
  - apply (no_nul_drop_blanks capacity capacity_range). assumption.
Qed.

(** A line that ends in a backslash is not empty and does not end in a
    carriage return. *)
Lemma text_ok_backslash (text : list ascii) :
  text_ok crlf (text ++ [BACKSLASH]) = true.
Proof.
  unfold text_ok. rewrite last_last. destruct crlf; [reflexivity |].
  destruct text; reflexivity.
Qed.

Lemma text_ok_fragment (ws frag : list ascii) :
  text_ok crlf (ws ++ frag ++ [BACKSLASH]) = true.
Proof. rewrite app_assoc. apply text_ok_backslash. Qed.

Lemma text_ok_first_line (ws1 name ws2 : list ascii) (sep : ascii)
    (ws3 v0 : list ascii) :
  text_ok crlf (ws1 ++ name ++ ws2 ++ sep :: ws3 ++ v0 ++ [BACKSLASH]) = true.
Proof.
  replace (ws1 ++ name ++ ws2 ++ sep :: ws3 ++ v0 ++ [BACKSLASH])
    with ((ws1 ++ name ++ ws2 ++ sep :: ws3 ++ v0) ++ [BACKSLASH]).
  - apply text_ok_backslash.
  - repeat rewrite <- app_assoc. cbn [app]. repeat rewrite <- app_assoc.
    reflexivity.
Qed.

(** The lines inside a record that goes on: the comments are passed over
    and the pieces are gathered in the buffer, in their order. *)
Lemma load_loop_continuations (name : list ascii) (more : list cont_line) :
  forall (prev : list ascii) (raw : list (list ascii)) (e : stream_end)
         (st : aeron_properties_parser_state_t) (lineno : Z)
         (calls : list (option env_call)) (seen : list (list ascii * Z)),
  name <> [] -> holds st name prev -> no_nul prev = true ->
  conts_ok capacity crlf (len name + 1 + len prev) more = true ->
  exists st',
    holds st' name (prev ++ List.concat (map cont_value more)) /\
    no_nul (prev ++ List.concat (map cont_value more)) = true /\
    load_loop capacity before_line
      (map (raw_line crlf) (map cont_text more) ++ raw) e st lineno calls seen
    = load_loop capacity before_line raw e st'
        (lineno + Z.of_nat (List.length more)) calls
        (seen ++ map (fun t => (t, len t)) (map cont_text more)).
Proof.
  unfold C.INT_MAX in capacity_range.
  induction more as [| c more IH];
    intros prev raw e st lineno calls seen Hname Hholds Hprev Hok.
  - exists st. cbn [map List.concat app List.length].
    rewrite !app_nil_r, Z.add_0_r. auto.
  - pose proof Hholds as [Hne [Hve _]].
    pose proof (len_nonneg name) as Ln. pose proof (len_nonneg prev) as Lp.
    assert (Ln1 : 1 <= len name).
    { destruct name; [contradiction |]. rewrite len_cons.
      pose proof (len_nonneg name). lia. }
    destruct c as [text | ws frag]; cbn [conts_ok] in Hok; split_tests.
    + match goal with H : (len text <? _) = true |- _ =>
        apply Z.ltb_lt in H; rename H into Hlen end.
      cbn [map app cont_text cont_value List.concat].
      rewrite load_loop_skips by (assumption || lia).
      destruct (IH prev raw e st (lineno + 1) calls
                  (seen ++ [(text, len text)]) Hname Hholds Hprev)
        as [st' [Hh [Hn Heq]]]; [assumption |].
      exists st'. split; [exact Hh | split; [exact Hn |]].
      rewrite Heq. rewrite <- app_assoc. cbn [app List.length].
      f_equal. lia.
    + match goal with H : (len _ <? _) = true |- _ =>
        apply Z.ltb_lt in H; rename H into Hlen end.
      pose proof (len_nonneg (ws ++ frag ++ [BACKSLASH])) as Lt.
      cbn [map app cont_text cont_value List.concat].
      rewrite load_loop_text by (apply text_ok_fragment || lia).
      rewrite (continuation_line_appends capacity capacity_range)
        by (assumption || lia).
      cbv zeta. cbn [result emitted state]. change (0 <? 0) with false.
      cbv iota.
      pose proof (holds_append (st, []) name prev frag Hholds) as Happ.
      cbn [fst] in Happ.
      assert (Hfn : no_nul frag = true).
      { match goal with H : is_fragment frag = true |- _ =>
          unfold is_fragment, is_value_text in H;
          rewrite !andb_true_iff in H; tauto end. }
      destruct (IH (prev ++ frag) raw e _ (lineno + 1) calls
                  (seen ++ [(ws ++ frag ++ [BACKSLASH],
                             len (ws ++ frag ++ [BACKSLASH]))])
                  Hname Happ (no_nul_app _ _ Hprev Hfn))
        as [st' [Hh [Hn Heq]]].
      { rewrite len_app.
        replace (len name + 1 + (len prev + len frag))
          with (len name + 1 + len prev + len frag) by lia.
        assumption. }
      exists st'. rewrite <- app_assoc in Hh, Hn.
      split; [exact Hh | split; [exact Hn |]].
      rewrite Heq. rewrite <- app_assoc. cbn [app List.length].
      f_equal. lia.
Qed.

(** The lines of one entry, from the state between records. *)
Lemma load_loop_entry (en : entry) (raw : list (list ascii))
    (e : stream_end) (st : aeron_properties_parser_state_t) (lineno : Z)
    (calls : list (option env_call)) (seen : list (list ascii * Z)) :
  zero_state st -> entry_ok capacity crlf en = true ->
  exists st',
    zero_state st' /\
    load_loop capacity before_line
      (map (raw_line crlf) (texts_of en) ++ raw) e st lineno calls seen
    = load_loop capacity before_line raw e st'
        (lineno + Z.of_nat (List.length (texts_of en)))
        (calls ++ calls_of en)
        (seen ++ map (fun t => (t, len t)) (texts_of en)).
Proof.
  intros Hst Hok. unfold C.INT_MAX in capacity_range.
  destruct en as [text | ws1 name ws2 sep rest
                  | ws1 name ws2 sep ws3 v0 more wsl last_frag].
  - (* a comment *)
    cbn [entry_ok] in Hok. split_tests.
    match goal with H : (len text <? _) = true |- _ =>
      apply Z.ltb_lt in H; rename H into Hlen end.
    exists st. split; [exact Hst |].
    destruct Hst as [_ Hve].
    cbn [texts_of map app calls_of record_of List.length].
    rewrite load_loop_skips by (assumption || lia).
    rewrite app_nil_r. reflexivity.
  - (* a record on one line *)
    destruct (load_loop_property ws1 name ws2 sep rest raw e st lineno calls
                seen Hst Hok) as [st' [Hz Heq]].
    exists st'. split; [exact Hz |].
    cbn [texts_of map app calls_of record_of List.length]. exact Heq.
  - (* a record over more lines *)
    cbn [entry_ok] in Hok. split_tests.
    repeat match goal with H : (_ <? _) = true |- _ =>
             apply Z.ltb_lt in H end.
    repeat match goal with H : negb _ = true |- _ =>
             apply negb_true_iff in H end.
    set (first := ws1 ++ name ++ ws2 ++ sep :: ws3 ++ v0 ++ [BACKSLASH]) in *.
    set (gathered := List.concat (map cont_value more)) in *.
    assert (Hnn : no_nul name = true /\ name <> []).
    { match goal with Hn : is_name name = true |- _ =>
        pose proof Hn as Hisname end.
      unfold is_name in Hisname. rewrite !andb_true_iff in Hisname.
      split; [tauto |].
      destruct name; [| discriminate].
      destruct Hisname as [[[Hx _] _] _]. discriminate Hx. }
    destruct Hnn as [Hnn Hne].
    pose proof (len_nonneg name) as Ln. pose proof (len_nonneg v0) as Lv.
    pose proof (len_nonneg gathered) as Lg.
    pose proof (len_nonneg (wsl ++ last_frag)) as Ll.
    cbn [texts_of map app]. rewrite map_app. cbn [map].
    rewrite <- app_assoc. cbn [app]. fold first.
    (* the first line *)
    rewrite load_loop_text by (apply text_ok_first_line || assumption).
    destruct (record_line_continues capacity capacity_range st ws1 name ws2
                sep ws3 v0 (aeron_properties_setenv_property capacity))
      as [Hres [Hem [_ [Hholds _]]]]; try assumption.
    fold first in Hres, Hem, Hholds. cbv zeta. rewrite Hres, Hem.
    change (0 <? 0) with false. cbv iota.
    (* the lines inside *)
    destruct (load_loop_continuations name more v0
                (raw_line crlf (wsl ++ last_frag) :: raw) e _ (lineno + 1)
                calls (seen ++ [(first, len first)]) Hne Hholds)
      as [st2 [Hh2 [Hn2 Heq2]]];
      [ apply (is_value_text_no_nul capacity capacity_range); assumption
      | assumption | ].
    fold gathered in Hh2, Hn2. rewrite Heq2. clear Heq2.
    (* the last line *)
    pose proof Hh2 as [_ [Hve2 _]]. rewrite len_app in Hve2.
    rewrite load_loop_text by (assumption || lia).
    assert (Hln : no_nul last_frag = true).
    { match goal with H : is_fragment last_frag = true |- _ =>
        pose proof H as Hf; unfold is_fragment, is_value_text in Hf;
        rewrite !andb_true_iff in Hf; tauto end. }
    destruct (continuation_line_emits capacity capacity_range st2 name
                (v0 ++ gathered) wsl last_frag
                (aeron_properties_setenv_property capacity))
      as [Hem3 [Hres3 [Hz3 _]]]; try assumption; try lia.
    { destruct last_frag; [discriminate | discriminate]. }
    cbv zeta. rewrite Hem3, Hres3, setenv_returns_zero.
    change (0 <? 0) with false. cbv iota.
    rewrite setenv_call;
      [ | assumption
        | pose proof (len_nonneg ws1); pose proof (len_nonneg ws2);
          pose proof (len_nonneg ws3);
          match goal with H : len first < capacity |- _ =>
            unfold first in H; rewrite !len_app, len_cons, !len_app in H end;
          lia
        | apply no_nul_app; assumption ].
    eexists. split; [exact Hz3 |].
    cbn [calls_of record_of List.length]. fold gathered.
    rewrite <- (app_assoc v0 gathered last_frag).
    rewrite !length_app, !length_map. cbn [List.length].
    rewrite map_app. cbn [map]. rewrite <- !app_assoc. cbn [app].
    f_equal. lia.
Qed.

(** The lines of a list of entries. *)
Lemma load_loop_entries (entries : list entry) :
  forall (raw : list (list ascii)) (e : stream_end)
         (st : aeron_properties_parser_state_t) (lineno : Z)
         (calls : list (option env_call)) (seen : list (list ascii * Z)),
  zero_state st -> forallb (entry_ok capacity crlf) entries = true ->
  exists st',
    zero_state st' /\
    load_loop capacity before_line (raw_lines crlf entries ++ raw) e st lineno
      calls seen
    = load_loop capacity before_line raw e st'
        (lineno + Z.of_nat (List.length (parsed_lines entries)))
        (calls ++ List.concat (map calls_of entries))
        (seen ++ parsed_lines entries).
Proof.
  unfold raw_lines, parsed_lines.
  induction entries as [| en entries IH];
    intros raw e st lineno calls seen Hst Hok.
  - exists st. cbn [map List.concat app List.length].
    rewrite !app_nil_r, Z.add_0_r. auto.
  - cbn [forallb] in Hok. apply andb_true_iff in Hok.
    destruct Hok as [Hen Hok].
    cbn [map List.concat]. rewrite !map_app, <- !app_assoc.
    destruct (load_loop_entry en
                (map (raw_line crlf) (List.concat (map texts_of entries)) ++ raw)
                e st lineno calls seen Hst Hen) as [st1 [Hz1 Heq1]].
    rewrite Heq1.
    destruct (IH raw e st1 (lineno + Z.of_nat (List.length (texts_of en)))
                (calls ++ calls_of en)
                (seen ++ map (fun t => (t, len t)) (texts_of en)) Hz1 Hok)
      as [st' [Hz Heq]].
    exists st'. split; [exact Hz |]. rewrite Heq.
    rewrite !length_app, !length_map, <- !app_assoc. f_equal. lia.
Qed.

End Files.

Section Well_formed_files.

Variable capacity : Z.
Hypothesis capacity_range : 0 < capacity <= C.INT_MAX.
Variable before_line : ascii.
Variable crlf : bool.




End Well_formed_files.




Section Buffer_in_total.

Variable capacity : Z.
Hypothesis capacity_range : 0 < capacity <= C.INT_MAX.
Variable before_line : ascii.
Variable crlf : bool.


End Buffer_in_total.

